(** * NebariSchemaLoader: a shallow embedding of [index.tsx]

    The component renders a dereferenced JSON Schema as documentation:
    a table of contents, one section per property, a details table,
    examples and the sub-properties revealed by [allOf].  The source file
    holds two variants of the component; the first one is embedded at the
    top level, the second one in [Module Variant2].

    Conventions of the embedding
    - a JavaScript string is a [string] whose characters are its code
      units (code units below 256);
    - an optional field is an [option]: [None] stands for a key that is
      absent or whose value is [undefined] (the fields come from JSON,
      where [undefined] does not occur; see [later_wins] for [allOf]);
    - an object used as a map is an association list in insertion order,
      and [Obj.entries] gives the order in which JavaScript lists it;
    - a React element is a [Node]; a component is a function to [Node],
      and a component that can throw returns a [res]. *)

From Stdlib Require Import String Ascii List ZArith NArith Lia Bool Arith.
From Stdlib Require Import Permutation Sorted.

Set Warnings "-register-all".
Import ListNotations.
Local Open Scope list_scope.
Local Open Scope string_scope.

(* ------------------------------------------------------------------ *)
(** ** Thrown values and the error monad *)

Inductive JsError : Type :=
| TypeError (message : string)
| Error (message : string).

Definition message_of (e : JsError) : string :=
  match e with TypeError m => m | Error m => m end.

Inductive res (A : Type) : Type :=
| Ok (a : A)
| Throw (e : JsError).
Arguments Ok {A} a.
Arguments Throw {A} e.

Definition bind {A B : Type} (c : res A) (k : A -> res B) : res B :=
  match c with
  | Ok a => k a
  | Throw e => Throw e
  end.

Notation "x <- c ;; k" := (bind c (fun x => k))
  (at level 61, c at next level, right associativity).

Fixpoint mapM {A B : Type} (f : A -> res B) (l : list A) : res (list B) :=
  match l with
  | [] => Ok []
  | a :: l' => b <- f a ;; bs <- mapM f l' ;; Ok (b :: bs)
  end.

(* ------------------------------------------------------------------ *)
(** ** JavaScript string primitives used by the component *)

Module Js.

Definition LF : string := String (ascii_of_nat 10) EmptyString.

(** White space and line terminators: what [\s] matches and [trim]
    removes, among the code units below 256. *)
Definition is_ws (c : ascii) : bool :=
  let n := nat_of_ascii c in
  (Nat.eqb n 9 || Nat.eqb n 10 || Nat.eqb n 11 || Nat.eqb n 12
   || Nat.eqb n 13 || Nat.eqb n 32 || Nat.eqb n 160)%bool.

Fixpoint trimStart (s : string) : string :=
  match s with
  | String c s' => if is_ws c then trimStart s' else s
  | EmptyString => EmptyString
  end.

(** [trimEnd] keeps a character when it is not white space or when
    something that is kept follows it. *)
Fixpoint trimEnd (s : string) : string :=
  match s with
  | EmptyString => EmptyString
  | String c s' =>
      match trimEnd s' with
      | EmptyString => if is_ws c then EmptyString else String c EmptyString
      | t => String c t
      end
  end.

Definition trim (s : string) : string := trimEnd (trimStart s).

(** [s.split('\n')]: never empty, [''.split('\n')] is [['']]. *)
Fixpoint split_lines (s : string) : list string :=
  match s with
  | EmptyString => [EmptyString]
  | String c s' =>
      if Nat.eqb (nat_of_ascii c) 10 then EmptyString :: split_lines s'
      else match split_lines s' with
           | l :: ls => String c l :: ls
           | [] => [String c EmptyString]
           end
  end.

(** [lines.join('\n')]. *)
Fixpoint join (sep : string) (l : list string) : string :=
  match l with
  | [] => EmptyString
  | [x] => x
  | x :: l' => x ++ sep ++ join sep l'
  end.

Fixpoint startsWith (p s : string) : bool :=
  match p, s with
  | EmptyString, _ => true
  | String a p', String b s' => if Ascii.eqb a b then startsWith p' s' else false
  | String _ _, EmptyString => false
  end.

Fixpoint drop (n : nat) (s : string) : string :=
  match n, s with
  | O, _ => s
  | S n', String _ s' => drop n' s'
  | S _, EmptyString => EmptyString
  end.

(** [s.includes(p)]. *)
Fixpoint includes (p s : string) : bool :=
  if startsWith p s then true
  else match s with
       | EmptyString => false
       | String _ s' => includes p s'
       end.

(** [line.search(/\S/)]: index of the first character that is not white
    space, [-1] when there is none. *)
Fixpoint search_non_ws (s : string) : Z :=
  match s with
  | EmptyString => (-1)%Z
  | String c s' =>
      if is_ws c then
        (let r := search_non_ws s' in if (r <? 0)%Z then (-1)%Z else r + 1)%Z
      else 0%Z
  end.

(** Numbers as [Math.min] sees them here: an integer or [Infinity]. *)
Inductive num : Type :=
| Fin (z : Z)
| Infinity.

Definition Math_min (a b : num) : num :=
  match a, b with
  | Fin x, Fin y => Fin (Z.min x y)
  | Fin x, Infinity => Fin x
  | Infinity, b => b
  end.

(** [s.substring(start)]: a negative start counts as 0 and a start past
    the end (also [Infinity]) as the length. *)
Definition substring_from (start : num) (s : string) : string :=
  match start with
  | Fin z => drop (Z.to_nat z) s
  | Infinity => EmptyString
  end.

(** [s.replace(/_/g, '-')]: every occurrence. *)
Fixpoint replace_all_underscores (s : string) : string :=
  match s with
  | EmptyString => EmptyString
  | String c s' =>
      String (if Ascii.eqb c "_"%char then "-"%char else c)
             (replace_all_underscores s')
  end.

(** [s.replace("_", "-")]: a string pattern replaces the first
    occurrence only. *)
Fixpoint replace_first_underscore (s : string) : string :=
  match s with
  | EmptyString => EmptyString
  | String c s' =>
      if Ascii.eqb c "_"%char then String "-"%char s'
      else String c (replace_first_underscore s')
  end.

(** Decimal rendering of a number in a template literal. *)
Fixpoint digits (fuel n : nat) (acc : string) : string :=
  match fuel with
  | O => acc
  | S fuel' =>
      let acc' := String (ascii_of_nat (48 + n mod 10)) acc in
      if Nat.ltb n 10 then acc' else digits fuel' (n / 10) acc'
  end.

Definition String_of_nat (n : nat) : string := digits (S n) n EmptyString.

End Js.

(* ------------------------------------------------------------------ *)
(** ** JSON values ([default?: any], [items?: any]) *)

(** Numbers are restricted to the integers that [JSON.stringify] prints
    digit by digit, those below [10^21] in absolute value; a fraction or
    a larger number has no value here.  The members of an object are
    listed in the order [JSON.stringify] visits them. *)
Inductive JSON : Type :=
| JNull
| JBool (b : bool)
| JNum (z : Z)
| JStr (s : string)
| JArr (elements : list JSON)
| JObj (members : list (string * JSON)).

Module Stringify.

Definition DQUOTE : string := String (ascii_of_nat 34) EmptyString.
Definition BACKSLASH : string := String (ascii_of_nat 92) EmptyString.

Definition hex_digit (n : nat) : ascii :=
  if Nat.ltb n 10 then ascii_of_nat (48 + n) else ascii_of_nat (87 + n).

(** The escapes of [JSON.stringify] for one code unit. *)
Definition escape_char (c : ascii) : string :=
  let n := nat_of_ascii c in
  if Nat.eqb n 34 then BACKSLASH ++ DQUOTE
  else if Nat.eqb n 92 then BACKSLASH ++ BACKSLASH
  else if Nat.eqb n 8 then BACKSLASH ++ "b"
  else if Nat.eqb n 12 then BACKSLASH ++ "f"
  else if Nat.eqb n 10 then BACKSLASH ++ "n"
  else if Nat.eqb n 13 then BACKSLASH ++ "r"
  else if Nat.eqb n 9 then BACKSLASH ++ "t"
  else if Nat.ltb n 32 then
    BACKSLASH ++ "u00"
      ++ String (hex_digit (n / 16)) (String (hex_digit (n mod 16)) EmptyString)
  else String c EmptyString.

Fixpoint escape (s : string) : string :=
  match s with
  | EmptyString => EmptyString
  | String c s' => escape_char c ++ escape s'
  end.

Definition quote (s : string) : string := DQUOTE ++ escape s ++ DQUOTE.

Definition number (z : Z) : string :=
  if (z <? 0)%Z then "-" ++ Js.String_of_nat (Z.to_nat (- z))
  else Js.String_of_nat (Z.to_nat z).

End Stringify.

(** [JSON.stringify(v)] without indentation. *)
Fixpoint JSON_stringify (v : JSON) : string :=
  match v with
  | JNull => "null"
  | JBool true => "true"
  | JBool false => "false"
  | JNum z => Stringify.number z
  | JStr s => Stringify.quote s
  | JArr elements =>
      "[" ++ Js.join "," (map JSON_stringify elements) ++ "]"
  | JObj members =>
      "{" ++ Js.join ","
               (map (fun kv => Stringify.quote (fst kv) ++ ":" ++ JSON_stringify (snd kv))
                    members)
          ++ "}"
  end.

(* ------------------------------------------------------------------ *)
(** ** Objects used as maps *)

Module Obj.

Section Object.
Context {V : Type}.

(** An object whose values are [V], in insertion order. *)
Definition t : Type := list (string * V).

Fixpoint get (k : string) (o : t) : option V :=
  match o with
  | [] => None
  | (k', v) :: o' => if String.eqb k k' then Some v else get k o'
  end.

(** [o[k] = v]: an existing key keeps its place, a new key goes last. *)
Fixpoint set (k : string) (v : V) (o : t) : t :=
  match o with
  | [] => [(k, v)]
  | (k', v') :: o' =>
      if String.eqb k k' then (k, v) :: o' else (k', v') :: set k v o'
  end.

(** [{ ...a, ...b }]. *)
Definition spread (a b : t) : t :=
  fold_left (fun acc kv => set (fst kv) (snd kv) acc) b a.

End Object.

(** An array index: the canonical decimal form of an integer below
    [2^32 - 1].  Such keys are enumerated first, in ascending order. *)
Fixpoint all_digits (s : string) : bool :=
  match s with
  | EmptyString => true
  | String c s' =>
      let n := nat_of_ascii c in
      (Nat.leb 48 n && Nat.leb n 57 && all_digits s')%bool
  end.

Fixpoint decimal_value (s : string) (acc : N) : N :=
  match s with
  | EmptyString => acc
  | String c s' => decimal_value s' (acc * 10 + N.of_nat (nat_of_ascii c - 48))%N
  end.

Definition array_index (k : string) : option N :=
  match k with
  | EmptyString => None
  | String c rest =>
      if (all_digits k
          && (negb (Ascii.eqb c "0"%char) || String.eqb rest EmptyString))%bool
      then let n := decimal_value k 0%N in
           if (n <? 4294967295)%N then Some n else None
      else None
  end.

Section Entries.
Context {V : Type}.

Fixpoint insert_index (e : N * (string * V)) (l : list (N * (string * V)))
  : list (N * (string * V)) :=
  match l with
  | [] => [e]
  | e' :: l' => if (fst e <? fst e')%N then e :: l else e' :: insert_index e l'
  end.

Fixpoint index_entries (o : @t V) : list (N * (string * V)) :=
  match o with
  | [] => []
  | kv :: o' =>
      match array_index (fst kv) with
      | Some n => insert_index (n, kv) (index_entries o')
      | None => index_entries o'
      end
  end.

Definition string_entries (o : @t V) : @t V :=
  filter (fun kv => match array_index (fst kv) with Some _ => false | None => true end) o.

(** [Object.entries(o)]: array indices in ascending order, then the
    other keys in insertion order. *)
Definition entries (o : @t V) : list (string * V) :=
  (map snd (index_entries o) ++ string_entries o)%list.

End Entries.

End Obj.

(* ------------------------------------------------------------------ *)
(** ** The data model: [SchemaProperty], [Properties], [Schema] *)

(** [type?: string | string[]]. *)
Inductive TypeField : Type :=
| TypeName (name : string)
| TypeNames (names : list string).

Inductive SchemaProperty : Type := mkProperty {
  deprecated : option bool;
  description : option string;
  type : option TypeField;
  pattern : option string;
  title : option string;
  items : option JSON;
  properties : option (list (string * SchemaProperty));
  enum : option (list string);
  default : option JSON;
  allOf : option (list SchemaProperty);
  examples : option (list string);
  optionsAre : option (list string);
  note : option string
}.

Definition Properties : Type := list (string * SchemaProperty).

(** The object literal [{}]. *)
Definition emptyProperty : SchemaProperty :=
  mkProperty None None None None None None None None None None None None None.

Module Schema.
Record t : Type := mk {
  title : string;
  description : string;
  type : string;
  properties : Properties;
  required : option (list string)
}.
End Schema.

(* ------------------------------------------------------------------ *)
(** ** [mergeAllOf] *)

(** One key of [{ ...acc, ...cur }]: the later object wins where it has
    the key.  The one key that can hold [undefined] is [allOf], written by
    [mergeAllOf] itself, and the accumulator it is then spread over has
    [allOf: undefined] already: absent or [undefined], the result is the
    same. *)
Definition later_wins {A : Type} (acc cur : option A) : option A :=
  match cur with
  | Some v => Some v
  | None => acc
  end.

(** [{ ...acc, ...cur }] on properties. *)
Definition spreadProperty (acc cur : SchemaProperty) : SchemaProperty :=
  {| deprecated := later_wins (deprecated acc) (deprecated cur);
     description := later_wins (description acc) (description cur);
     type := later_wins (type acc) (type cur);
     pattern := later_wins (pattern acc) (pattern cur);
     title := later_wins (title acc) (title cur);
     items := later_wins (items acc) (items cur);
     properties := later_wins (properties acc) (properties cur);
     enum := later_wins (enum acc) (enum cur);
     default := later_wins (default acc) (default cur);
     allOf := later_wins (allOf acc) (allOf cur);
     examples := later_wins (examples acc) (examples cur);
     optionsAre := later_wins (optionsAre acc) (optionsAre cur);
     note := later_wins (note acc) (note cur) |}.

(** [{ ...p, allOf: undefined }]. *)
Definition without_allOf (p : SchemaProperty) : SchemaProperty :=
  {| deprecated := deprecated p; description := description p; type := type p;
     pattern := pattern p; title := title p; items := items p;
     properties := properties p; enum := enum p; default := default p;
     allOf := None;
     examples := examples p; optionsAre := optionsAre p; note := note p |}.

(** [{ ...p, properties: props }]. *)
Definition with_properties (p : SchemaProperty) (props : Properties)
  : SchemaProperty :=
  {| deprecated := deprecated p; description := description p; type := type p;
     pattern := pattern p; title := title p; items := items p;
     properties := Some props;
     enum := enum p; default := default p; allOf := allOf p;
     examples := examples p; optionsAre := optionsAre p; note := note p |}.

(** [{ ...o }] where [o] may be [undefined]: spreading [undefined]
    contributes no key. *)
Definition own (o : option Properties) : Properties :=
  match o with
  | Some props => props
  | None => []
  end.

(** The callback of the [reduce] in [mergeAllOf], given the flattened
    fragment [merged = mergeAllOf(cur)]:
    [{ ...acc, ...merged, properties: { ...acc.properties, ...cur.properties } }]. *)
Definition mergeStep (acc cur merged : SchemaProperty) : SchemaProperty :=
  with_properties (spreadProperty acc merged)
                  (Obj.spread (own (properties acc)) (own (properties cur))).

Fixpoint mergeAllOf (property : SchemaProperty) : SchemaProperty :=
  match allOf property with
  | None => property
  | Some fragments =>
      let base := without_allOf property in
      fold_left (fun acc cur => mergeStep acc cur (mergeAllOf cur)) fragments base
  end.

(** A measure for the recursion of the renderer: the number of
    properties in a property tree. *)
Fixpoint property_size (p : SchemaProperty) : nat :=
  S (match properties p with
     | Some props => list_sum (map (fun kv => property_size (snd kv)) props)
     | None => 0
     end
     + match allOf p with
       | Some fragments => list_sum (map property_size fragments)
       | None => 0
       end).

Definition properties_size (props : Properties) : nat :=
  list_sum (map (fun kv => property_size (snd kv)) props).

(* ------------------------------------------------------------------ *)
(** ** The example splitter: [parseContent] *)

Module Splitter.
Import Js.

Definition FENCE : string := "```".
Definition FENCE_YAML : string := "```yaml".

(** The first [```] of [s]: the text before it and the text after it. *)
Fixpoint find_fence (s : string) : option (string * string) :=
  if startsWith FENCE s then Some (EmptyString, drop 3 s)
  else match s with
       | EmptyString => None
       | String c s' =>
           match find_fence s' with
           | Some (inner, rest) => Some (String c inner, rest)
           | None => None
           end
       end.

(** [codeRegex = /```yaml[\s\S]*?```/]: the leftmost match, lazy up to
    the nearest closing fence.  The result is the text before the match,
    the match and the text after it. *)
Fixpoint match_codeRegex (s : string) : option (string * string * string) :=
  let here :=
    if startsWith FENCE_YAML s then
      match find_fence (drop 7 s) with
      | Some (inner, rest) => Some (EmptyString, FENCE_YAML ++ inner ++ FENCE, rest)
      | None => None
      end
    else None in
  match here with
  | Some m => Some m
  | None =>
      match s with
      | EmptyString => None
      | String c s' =>
          match match_codeRegex s' with
          | Some (before, m, after) => Some (String c before, m, after)
          | None => None
          end
      end
  end.

(** [s.replace(/```yaml|```/g, '')]; [skip] counts the characters of a
    fence still to be dropped. *)
Fixpoint strip_fences (skip : nat) (s : string) : string :=
  match s with
  | EmptyString => EmptyString
  | String c s' =>
      match skip with
      | S k => strip_fences k s'
      | O =>
          if startsWith FENCE_YAML s then strip_fences 6 s'
          else if startsWith FENCE s then strip_fences 2 s'
          else String c (strip_fences 0 s')
      end
  end.

(** A string is truthy when it is not empty. *)
Definition truthy_string (s : string) : bool :=
  match s with
  | EmptyString => false
  | String _ _ => true
  end.

Record Parsed : Type := { briefing : string; codeBlock : string }.

(** [parseContent(input)]; [None] is [undefined], on which
    [input.match] throws (the message is the one V8 gives). *)
Definition parseContent (input : option string) : res Parsed :=
  match input with
  | None =>
      Throw (TypeError "Cannot read properties of undefined (reading 'match')")
  | Some input =>
      let codeMatch := match_codeRegex input in
      let codeBlock :=
        match codeMatch with
        | Some (_, m, _) =>
            let codeBlock := trim (strip_fences 0 m) in
            let lines := split_lines codeBlock in
            let minIndentation :=
              fold_left (fun min line => Math_min min (Fin (search_non_ws line)))
                        (filter (fun line => truthy_string (trim line)) lines)
                        Infinity in
            join LF (map (substring_from minIndentation) lines)
        | None => EmptyString
        end in
      let briefing :=
        trim (match codeMatch with
              | Some (before, _, after) => before ++ after
              | None => input
              end) in
      Ok {| briefing := briefing; codeBlock := codeBlock |}
  end.

End Splitter.

(* ------------------------------------------------------------------ *)
(** ** The render tree *)

(** The value of a JSX attribute. *)
Inductive PropValue : Type :=
| PStr (s : string)
| PStyle (css : list (string * string))
| PElement (tag : string) (text : string)
| PTabValues (values : list (string * string)).

(** A React element: text, or a tag with its attributes and children.
    The components of this file are functions to [Node]; the elements of
    the theme ([Heading], [Details], [Tabs], [TabItem], [Admonition]) and
    [ReactMarkdown] stay as tags.  A [key] is kept on a DOM element and
    dropped on a component of this file, which does not see it. *)
Inductive Node : Type :=
| Text (s : string)
| Elem (tag : string) (props : list (string * PropValue)) (children : list Node).

(** [<>...</>]. *)
Definition Fragment (children : list Node) : Node := Elem "Fragment" [] children.

(** [{cond && element}] as children: nothing when [cond] is falsy. *)
Definition when (cond : bool) (element : Node) : list Node :=
  if cond then [element] else [].

(** Truthiness of the optional fields. *)
Definition truthy_bool (b : option bool) : bool :=
  match b with
  | Some true => true
  | _ => false
  end.

Definition truthy_str (s : option string) : bool :=
  match s with
  | Some s => Splitter.truthy_string s
  | None => false
  end.

Definition truthy_type (t : option TypeField) : bool :=
  match t with
  | Some (TypeName s) => Splitter.truthy_string s
  | Some (TypeNames _) => true
  | None => false
  end.

Definition is_defined {A : Type} (o : option A) : bool :=
  match o with
  | Some _ => true
  | None => false
  end.

(** [<span style={{ textDecoration: "line-through" }}>{key}</span>]. *)
Definition strikethrough (key : string) : Node :=
  Elem "span" [("style", PStyle [("textDecoration", "line-through")])] [Text key].

(** [<span className="badge badge--danger">Deprecated</span>]. *)
Definition deprecatedBadge : Node :=
  Elem "span" [("className", PStr "badge badge--danger")] [Text "Deprecated"].

(** [<ReactMarkdown>{text}</ReactMarkdown>], also the component [Markdown]. *)
Definition Markdown (text : string) : Node :=
  Elem "ReactMarkdown" [] [Text text].

(** [Array.prototype.sort()] without a comparator on the entries of an
    object: the elements are compared as strings, and an entry
    [[key, value]] converts to [key + "," + "[object Object]"].  The sort
    is stable. *)
Definition entry_toString (e : string * SchemaProperty) : string :=
  fst e ++ "," ++ "[object Object]".

Fixpoint sort_insert (e : string * SchemaProperty) (l : Properties) : Properties :=
  match l with
  | [] => [e]
  | e' :: l' =>
      if String.ltb (entry_toString e') (entry_toString e)
      then e' :: sort_insert e l'
      else e :: l
  end.

Definition sort (l : Properties) : Properties := fold_right sort_insert [] l.

(** The entry of the table of contents, the same in both variants. *)
Definition tocEntry (e : string * SchemaProperty) : Node :=
  let (key, value) := e in
  Elem "li" [("key", PStr key)]
    [Elem "a" [("href", PStr ("#" ++ Js.replace_all_underscores key))]
       [if truthy_bool (deprecated value) then strikethrough key else Text key]].

Definition SchemaToc (schema : Schema.t) : Node :=
  Elem "ul" [] (map tocEntry (sort (Obj.entries (Schema.properties schema)))).

Definition titleStyle : list (string * string) :=
  [("background", "linear-gradient(to right, var(--ifm-color-primary) 0%, var(--ifm-color-primary) 5px, var(--ifm-admonition-background-color) 5px, var(--ifm-admonition-background-color) 100%)");
   ("padding", "8px 15px");
   ("borderRadius", "5px");
   ("display", "inline-block")].

(** [PropertieTitle({ title, subHeading = false, deprecated = false })]. *)
Definition PropertieTitle (title : string) (subHeading : bool)
    (deprecated : option bool) : Node :=
  let deprecated := match deprecated with Some b => b | None => false end in
  Elem "div" []
    [Elem "Heading"
       [("as", PStr (if subHeading then "h3" else "h2"));
        ("id", PStr (Js.replace_all_underscores title))]
       [Elem "span" [("style", PStyle titleStyle)]
          ([Text title; Text " "] ++ when deprecated deprecatedBadge)%list]].

(* ------------------------------------------------------------------ *)
(** ** [MarkdownCodeSeparator] *)

Definition preStyle : list (string * string) :=
  [("borderRadius", "8px"); ("border", "1px solid #ccc");
   ("padding", "10px"); ("overflow", "auto")].

(** The body shared by the tab and the tabless example. *)
Definition exampleBody (parsed : Splitter.Parsed) : list Node :=
  [Markdown (Splitter.briefing parsed);
   Elem "pre" [("style", PStyle preStyle)] [Text (Splitter.codeBlock parsed)]].

(** [examples.map((x, index) => f(x, index))]. *)
Fixpoint mapi_from {A B : Type} (index : nat) (f : A -> nat -> B) (l : list A)
  : list B :=
  match l with
  | [] => []
  | x :: l' => f x index :: mapi_from (S index) f l'
  end.

(** [examples] is [None] when it is not an array. *)
Definition MarkdownCodeSeparator (examples : option (list string))
    (inputKey : string) : res Node :=
  match examples with
  | None => Ok (Elem "div" [] [Text "No examples provided"])
  | Some examples =>
      if Nat.ltb 1 (length examples) then
        items <- mapM (fun item => item)
                   (mapi_from 0
                      (fun example index =>
                         parsed <- Splitter.parseContent (Some example) ;;
                         Ok (Elem "TabItem"
                               [("key", PStr (Js.String_of_nat index));
                                ("value", PStr ("example-" ++ Js.String_of_nat index))]
                               [Elem "div" [] (exampleBody parsed)]))
                      examples) ;;
        Ok (Elem "Tabs"
              [("defaultValue", PStr "example-0");
               ("values",
                PTabValues
                  (mapi_from 0
                     (fun (_ : string) index =>
                        ("Example " ++ Js.String_of_nat (index + 1),
                         "example-" ++ Js.String_of_nat index))
                     examples))]
              items)
      else
        parsed <- Splitter.parseContent (nth_error examples 0) ;;
        Ok (Elem "div" [("key", PStr inputKey)] (exampleBody parsed))
  end.

(* ------------------------------------------------------------------ *)
(** ** [PropertyContent] *)

Definition cellStyle : (string * PropValue) :=
  ("style", PStyle [("padding", "8px")]).

Definition headStyle : (string * PropValue) :=
  ("style", PStyle [("fontWeight", "bold"); ("padding", "8px")]).

Definition tableStyle : (string * PropValue) :=
  ("style", PStyle [("borderCollapse", "collapse"); ("borderRadius", "8px");
                    ("border", "1px solid #ccc")]).

Definition tableCss : string :=
  Js.LF ++ "                            .property-details tbody tr:nth-child(even) {"
  ++ Js.LF ++ "                                background-color: var(--ifm-admonition-background-color);"
  ++ Js.LF ++ "                            }"
  ++ Js.LF ++ "                        ".

(** One row of the details table: a label and a cell. *)
Definition row (label : string) (cell : list Node) : Node :=
  Elem "tr" []
    [Elem "th" [headStyle] [Text label];
     Elem "td" [cellStyle; ("width", PStr "100%")] cell].

Definition code (text : string) : Node := Elem "code" [] [Text text].

(** [Array.isArray(property.type) ? property.type.join(", ") : property.type]. *)
Definition typeText (t : TypeField) : string :=
  match t with
  | TypeNames names => Js.join ", " names
  | TypeName name => name
  end.

(** The rows of [<tbody>], each guarded by its own field. *)
Definition tableRows (property : SchemaProperty) : list Node :=
  (match type property with
   | Some t => when (truthy_type (Some t)) (row "Type:" [code (typeText t)])
   | None => []
   end
   ++ match default property with
      | Some d => [row "Default:" [code (JSON_stringify d)]]
      | None => []
      end
   ++ match enum property with
      | Some values => [row "Available options:" [Text (Js.join ", " values)]]
      | None => []
      end
   ++ match optionsAre property with
      | Some values => [row "Options:" [Text (Js.join ", " values)]]
      | None => []
      end
   ++ match pattern property with
      | Some p => when (Splitter.truthy_string p) (row "Pattern:" [code p])
      | None => []
      end)%list.

(** [property.type || property.default !== undefined || property.enum
     || property.optionsAre || property.pattern || property.deprecated],
    as the condition it is used for. *)
Definition hasTableData (property : SchemaProperty) : bool :=
  (truthy_type (type property)
   || is_defined (default property)
   || is_defined (enum property)
   || is_defined (optionsAre property)
   || truthy_str (pattern property)
   || truthy_bool (deprecated property))%bool.

Definition detailsTable (property : SchemaProperty) : Node :=
  Elem "table" [("className", PStr "property-details"); tableStyle]
    [Elem "style" [] [Text tableCss];
     Elem "tbody" [] (tableRows property)].

Definition PropertyContent (property : SchemaProperty) : res Node :=
  examplesBlock <-
    match examples property with
    | Some examples =>
        separator <- MarkdownCodeSeparator (Some examples) "examples" ;;
        Ok [Elem "div" [("className", PStr "property-examples")] [separator]]
    | None => Ok []
    end ;;
  Ok (Elem "div" [("className", PStr "property-content")]
        (match description property with
         | Some text =>
             when (Splitter.truthy_string text)
                  (Elem "div" [("className", PStr "property-description")]
                     [Markdown text])
         | None => []
         end
         ++ when (hasTableData property) (detailsTable property)
         ++ examplesBlock
         ++ match note property with
            | Some text =>
                when (Splitter.truthy_string text)
                     (Elem "Admonition" [("type", PStr "note")] [Markdown text])
            | None => []
            end)%list).

(* ------------------------------------------------------------------ *)
(** ** [PropertiesList] *)

(** [value.allOf && value.allOf.length > 0 ? (value.allOf[0].properties ? ... : null) : null]:
    the condition under which the "Available Options" section is built. *)
Definition firstFragmentHasProperties (value : SchemaProperty) : bool :=
  match allOf value with
  | Some (first :: _) => is_defined (properties first)
  | Some [] => false
  | None => false
  end.

Definition availableOptions (nested : Node) : Node :=
  Elem "Details" [("summary", PElement "summary" "Available Options")] [nested].

(** The body of [PropertiesList], with [self] for the recursive call. *)
Definition PropertiesList_body (self : Properties -> bool -> res Node)
    (properties_ : Properties) (sub_heading : bool) : res Node :=
  items <-
    mapM (fun entry : string * SchemaProperty =>
            let (key, value) := entry in
            content <- PropertyContent value ;;
            options <-
              (if firstFragmentHasProperties value then
                 nested <- self (own (properties (mergeAllOf value))) true ;;
                 Ok [availableOptions nested]
               else Ok []) ;;
            Ok (Elem "div" [("key", PStr key)]
                  ([PropertieTitle key sub_heading (deprecated value); content]
                   ++ options)%list))
         (Obj.entries properties_) ;;
  Ok (Fragment items).

(** The recursion goes through [mergeAllOf], so it is driven by a
    counter; [PropertiesList] starts it above [properties_size], which the
    recursion never exhausts (see [PropertiesList_unfold]). *)
Fixpoint PropertiesList_rec (n : nat) : Properties -> bool -> res Node :=
  match n with
  | O => fun _ _ => Throw (Error "PropertiesList: recursion counter exhausted")
  | S n' => PropertiesList_body (PropertiesList_rec n')
  end.

Definition PropertiesList (properties_ : Properties) (sub_heading : bool)
  : res Node :=
  PropertiesList_rec (S (properties_size properties_)) properties_ sub_heading.

(* ------------------------------------------------------------------ *)
(** ** The loader: [useSchema] and [NebariConfig] *)

Definition schemaUrl : string :=
  "https://raw.githubusercontent.com/viniciusdc/nebari/nebari-schema-models/nebari-config-schema.json".

(** The state of the hook: [{ schema, loading, error }]. *)
Record HookState : Type := {
  schema : Schema.t;
  loading : bool;
  error : option string
}.

Definition setSchema (s : Schema.t) (st : HookState) : HookState :=
  {| schema := s; loading := loading st; error := error st |}.

Definition setError (e : option string) (st : HookState) : HookState :=
  {| schema := schema st; loading := loading st; error := e |}.

Definition setLoading (b : bool) (st : HookState) : HookState :=
  {| schema := schema st; loading := b; error := error st |}.

(** What the page shows for a state of the hook, as [NebariConfig]
    tests it: [loading] first, then a truthy [error]. *)
Inductive View : Type :=
| Loading
| ErrorView (message : string)
| Ready (s : Schema.t).

Definition view (st : HookState) : View :=
  if loading st then Loading
  else match error st with
       | Some message =>
           if Splitter.truthy_string message then ErrorView message
           else Ready (schema st)
       | None => Ready (schema st)
       end.

Definition infoAdmonition (linkProps : list (string * PropValue)) : Node :=
  Elem "Admonition" [("type", PStr "info")]
    [Text "This documentation is autogenerated from the Nebari configuration JSON Schema.";
     Elem "a" linkProps [Text "View the original schema"];
     Text "."].

Section Loader.

(** The raw document, as [response.json()] gives it, and the reference
    resolver [new Resolver().resolve(json, {})] followed by [.result];
    a rejected promise is a [Throw]. *)
Variable Raw : Type.
Variable resolve : Raw -> res Schema.t.

(** The response of [fetch]: [json] is the outcome of [response.json()]. *)
Record Response : Type := {
  ok : bool;
  status : nat;
  statusText : string;
  json : res Raw
}.

(** [try { ... } catch (err) { setError(err.message) } finally { setLoading(false) }]. *)
Definition try_catch_finally (body : res Schema.t) (st : HookState) : HookState :=
  let st' :=
    match body with
    | Ok result => setSchema result st
    | Throw err => setError (Some (message_of err)) st
    end in
  setLoading false st'.

(** The first variant; [fetched] is the outcome of [await fetch(...)]. *)
Definition fetchSchema (fetched : res Response) (st : HookState) : HookState :=
  try_catch_finally
    (response <- fetched ;;
     _ <- (if negb (ok response) then
             Throw (Error ("Failed to fetch schema: "
                           ++ Js.String_of_nat (status response) ++ " "
                           ++ statusText response))
           else Ok tt) ;;
     json <- json response ;;
     resolve json)
    st.

Definition defaultSchema : Schema.t :=
  {| Schema.title := "ConfigSchema";
     Schema.description := "The configuration schema for Nebari.";
     Schema.type := "object";
     Schema.properties := [];
     Schema.required := None |}.

(** [useSchema(schemaUrl, false)] once the effect has settled (the
    [useLocal] branch is not taken by [NebariConfig]). *)
Definition useSchema (fetched : res Response) : HookState :=
  fetchSchema fetched {| schema := defaultSchema; loading := true; error := None |}.

Definition NebariConfig (st : HookState) : res Node :=
  match view st with
  | Loading => Ok (Elem "p" [] [Text "Loading schema..."])
  | ErrorView message => Ok (Elem "p" [] [Text "Error loading schema: "; Text message])
  | Ready schema =>
      list <- PropertiesList (Schema.properties schema) false ;;
      Ok (Fragment
            [infoAdmonition [("href", PStr schemaUrl); ("target", PStr "_blank");
                             ("rel", PStr "noopener noreferrer")];
             SchemaToc schema;
             Markdown (Schema.description schema);
             list])
  end.

End Loader.

Arguments ok {Raw} _.
Arguments status {Raw} _.
Arguments statusText {Raw} _.
Arguments json {Raw} _.

(* ------------------------------------------------------------------ *)
(** ** The second variant of the component *)

Module Variant2.

Definition defaultSchema : Schema.t :=
  {| Schema.title := "Nebari Configuration";
     Schema.description := "The configuration schema for Nebari.";
     Schema.type := "object";
     Schema.properties :=
       [("deprecated",
         mkProperty (Some true) None None None None None None None None None None
                    None None)];
     Schema.required := None |}.

Definition SchemaToc (properties_ : Properties) : Node :=
  let propertyEntries := sort (Obj.entries properties_) in
  Elem "ul" [] (map tocEntry propertyEntries).

(** [PropertyDetail({ name, property, level = 1 })]. *)
Definition PropertyDetail (name : string) (property : SchemaProperty)
    (level : nat) : Node :=
  Fragment
    ([Elem "a" [("id", PStr (Js.replace_first_underscore name))] [];
      Elem "Heading"
        [("as", PStr ("h" ++ Js.String_of_nat (level + 2)));
         ("id", PStr (Js.replace_all_underscores name))]
        [if truthy_bool (deprecated property) then strikethrough name else Text name]]
     ++ when (truthy_bool (deprecated property)) (Elem "p" [] [deprecatedBadge])
     ++ match description property with
        | Some text => when (Splitter.truthy_string text) (Markdown text)
        | None => []
        end)%list.

Definition PropertiesList (properties_ : Properties) : Node :=
  Fragment (map (fun entry : string * SchemaProperty =>
                   let (key, value) := entry in PropertyDetail key value 1)
                (Obj.entries properties_)).

Section Loader.

Variable Raw : Type.
Variable resolve : Raw -> res Schema.t.

(** The second variant reads the body without looking at the status. *)
Definition fetchSchema (fetched : res (Response Raw)) (st : HookState) : HookState :=
  try_catch_finally
    (response <- fetched ;;
     rawSchema <- json response ;;
     resolve rawSchema)
    st.

Definition useSchema (fetched : res (Response Raw)) : HookState :=
  fetchSchema fetched {| schema := defaultSchema; loading := true; error := None |}.

(** [if (!schema) return null] never fires on a [Schema.t]. *)
Definition NebariConfig (st : HookState) : Node :=
  match view st with
  | Loading => Elem "p" [] [Text "Loading schema..."]
  | ErrorView message => Elem "p" [] [Text "Error loading schema: "; Text message]
  | Ready schema =>
      Fragment
        [infoAdmonition [("href", PStr schemaUrl); ("target", PStr "_blank")];
         SchemaToc (Schema.properties schema);
         Markdown (Schema.description schema);
         PropertiesList (Schema.properties schema)]
  end.

End Loader.

End Variant2.

(* ------------------------------------------------------------------ *)
(** ** Observations on properties and on the render tree *)

(** The scalar fields of the merge rule, read uniformly. *)
Inductive ScalarField : Type :=
| F_type | F_default | F_enum | F_description | F_pattern
| F_optionsAre | F_note | F_title | F_deprecated.

Inductive FieldValue : Type :=
| VBool (b : bool)
| VString (s : string)
| VType (t : TypeField)
| VStrings (l : list string)
| VJson (j : JSON).

Definition field (f : ScalarField) (p : SchemaProperty) : option FieldValue :=
  match f with
  | F_type => option_map VType (type p)
  | F_default => option_map VJson (default p)
  | F_enum => option_map VStrings (enum p)
  | F_description => option_map VString (description p)
  | F_pattern => option_map VString (pattern p)
  | F_optionsAre => option_map VStrings (optionsAre p)
  | F_note => option_map VString (note p)
  | F_title => option_map VString (title p)
  | F_deprecated => option_map VBool (deprecated p)
  end.

Definition children (n : Node) : list Node :=
  match n with
  | Elem _ _ c => c
  | Text _ => []
  end.

Definition tagOf (n : Node) : option string :=
  match n with
  | Elem tag _ _ => Some tag
  | Text _ => None
  end.

Fixpoint propOf (name : string) (props : list (string * PropValue))
  : option PropValue :=
  match props with
  | [] => None
  | (n, v) :: props' => if String.eqb name n then Some v else propOf name props'
  end.

Definition keyOf (n : Node) : option string :=
  match n with
  | Elem _ props _ =>
      match propOf "key" props with
      | Some (PStr k) => Some k
      | _ => None
      end
  | Text _ => None
  end.

(** The keys of the children of a node, in order. *)
Definition childKeys (n : Node) : list string :=
  flat_map (fun c => match keyOf c with Some k => [k] | None => [] end)
           (children n).

Definition hasTag (tag : string) (n : Node) : bool :=
  match tagOf n with
  | Some t => String.eqb t tag
  | None => false
  end.

(** The "Available Options" sections directly under a node. *)
Definition detailsOf (n : Node) : list Node :=
  filter (hasTag "Details") (children n).

(** The details tables directly under a node. *)
Definition tablesOf (n : Node) : list Node :=
  filter (hasTag "table") (children n).





(** The heading of a rendered section. *)
Fixpoint headingsOf (n : Node) : list Node :=
  match n with
  | Text _ => []
  | Elem tag _ c =>
      if String.eqb tag "Heading" then [n] else flat_map headingsOf c
  end.

(** What one entry of [properties] is rendered to: a section with the
    key of the entry and, under the test of the source, the "Available
    Options" of the flattened entry. *)
Definition sectionOf (sub_heading : bool) (entry : string * SchemaProperty)
    (section : Node) : Prop :=
  keyOf section = Some (fst entry)
  /\ if firstFragmentHasProperties (snd entry)
     then exists nested,
         PropertiesList (own (properties (mergeAllOf (snd entry)))) true = Ok nested
         /\ detailsOf section = [availableOptions nested]
     else detailsOf section = [].

(** Object literals with one field, for stating examples. *)
Definition propertiesOnly (props : Properties) : SchemaProperty :=
  with_properties emptyProperty props.

Definition allOfOnly (fragments : list SchemaProperty) : SchemaProperty :=
  mkProperty None None None None None None None None None (Some fragments)
             None None None.

Definition typeOnly (name : string) : SchemaProperty :=
  mkProperty None None (Some (TypeName name)) None None None None None None None
             None None None.

Definition typeAndDefault (name : string) (d : JSON) : SchemaProperty :=
  mkProperty None None (Some (TypeName name)) None None None None None (Some d)
             None None None None.

Definition deprecatedOnly (b : bool) : SchemaProperty :=
  mkProperty (Some b) None None None None None None None None None None None None.

Definition examplesOnly (l : list string) : SchemaProperty :=
  mkProperty None None None None None None None None None None (Some l) None None.

(** More observations, for the properties of the whole component. *)

(** The keys of an object, in insertion order. *)
Definition keys {V : Type} (o : @Obj.t V) : list string := map fst o.

(** No property of the tree, at any depth of [properties] and [allOf],
    has [examples: []]. *)
Fixpoint noEmptyExamples (p : SchemaProperty) : bool :=
  (match examples p with
   | Some [] => false
   | _ => true
   end
   && match properties p with
      | Some props => forallb (fun kv => noEmptyExamples (snd kv)) props
      | None => true
      end
   && match allOf p with
      | Some fragments => forallb noEmptyExamples fragments
      | None => true
      end)%bool.

Definition noEmptyExamplesIn (props : Properties) : bool :=
  forallb (fun kv => noEmptyExamples (snd kv)) props.

Fixpoint count_underscores (s : string) : nat :=
  match s with
  | EmptyString => 0
  | String c s' =>
      (if Ascii.eqb c "_"%char then 1 else 0) + count_underscores s'
  end.

(** Every character of the key is above the comma in code-unit order
    (letters, digits, [-], [.], [_] are). *)
Fixpoint above_comma (s : string) : bool :=
  match s with
  | EmptyString => true
  | String c s' => (Nat.ltb 44 (nat_of_ascii c) && above_comma s')%bool
  end.

Definition stringProp (name : string) (n : Node) : option string :=
  match n with
  | Elem _ props _ =>
      match propOf name props with
      | Some (PStr v) => Some v
      | _ => None
      end
  | Text _ => None
  end.

(** The target of an entry of the table of contents: the [href] of the
    link inside the [li]. *)
Definition hrefOf (entry : Node) : option string :=
  match children entry with
  | [link] => stringProp "href" link
  | _ => None
  end.

(** The [id]s of the headings of a rendered tree. *)
Definition headingIds (n : Node) : list string :=
  flat_map (fun h => match stringProp "id" h with Some i => [i] | None => [] end)
           (headingsOf n).

(** The [values] prop of a [Tabs] element. *)
Definition tabValues (n : Node) : list (string * string) :=
  match n with
  | Elem _ props _ =>
      match propOf "values" props with
      | Some (PTabValues values) => values
      | _ => []
      end
  | Text _ => []
  end.

(** The order of the default sort, on entries and on their keys: [a]
    does not come after [b]. *)
Definition notAfter (a b : string * SchemaProperty) : Prop :=
  String.ltb (entry_toString b) (entry_toString a) = false.

Definition tocOrder (k1 k2 : string) : Prop :=
  String.ltb (k2 ++ ",[object Object]") (k1 ++ ",[object Object]") = false.

(** The lexicographic order of the keys themselves. *)
Definition keyOrder (k1 k2 : string) : Prop := String.ltb k2 k1 = false.

(* ================================================================== *)
(** * Properties *)

(** ** [mergeAllOf] *)

Lemma mergeAllOf_eq (p : SchemaProperty) :
  mergeAllOf p =
  match allOf p with
  | None => p
  | Some fragments =>
      fold_left (fun acc cur => mergeStep acc cur (mergeAllOf cur))
                fragments (without_allOf p)
  end.
Proof. destruct p; reflexivity. Qed.

Lemma field_mergeStep (f : ScalarField) (acc cur merged : SchemaProperty) :
  field f (mergeStep acc cur merged) = later_wins (field f acc) (field f merged).
Proof.
  destruct f; cbn [field mergeStep with_properties spreadProperty
                   type default enum description pattern optionsAre note
                   title deprecated];
    match goal with
    | |- context [later_wins _ ?x] => destruct x; reflexivity
    end.
Qed.

Lemma field_without_allOf (f : ScalarField) (p : SchemaProperty) :
  field f (without_allOf p) = field f p.
Proof. destruct f; reflexivity. Qed.

Lemma field_fold_merge (f : ScalarField) (fragments : list SchemaProperty) :
  forall acc,
    field f (fold_left (fun acc cur => mergeStep acc cur (mergeAllOf cur))
                       fragments acc)
    = fold_left (fun a cur => later_wins a (field f (mergeAllOf cur)))
                fragments (field f acc).
Proof.
  induction fragments as [|cur rest IH]; intros acc; cbn [fold_left].
  - reflexivity.
  - rewrite IH, field_mergeStep. reflexivity.
Qed.

(** Sizes, and induction on the fragments of a property. *)

Lemma property_size_eq (p : SchemaProperty) :
  property_size p =
  S (properties_size (own (properties p))
     + match allOf p with
       | Some fragments => list_sum (map property_size fragments)
       | None => 0
       end).
Proof. destruct p as [? ? ? ? ? ? props ? ? ? ? ? ?]; destruct props; reflexivity. Qed.

Lemma list_sum_In {A : Type} (f : A -> nat) (l : list A) (x : A) :
  In x l -> f x <= list_sum (map f l).
Proof.
  induction l as [|y l IH]; intros Hin; [contradiction|].
  simpl. destruct Hin as [->|Hin]; [lia|].
  specialize (IH Hin). lia.
Qed.

Lemma fragment_smaller (p cur : SchemaProperty) (fragments : list SchemaProperty) :
  allOf p = Some fragments -> In cur fragments ->
  property_size cur < property_size p.
Proof.
  intros Hall Hin. rewrite (property_size_eq p), Hall.
  pose proof (list_sum_In property_size fragments cur Hin). lia.
Qed.

Lemma fragments_ind (P : SchemaProperty -> Prop) :
  (forall p,
      (forall fragments cur, allOf p = Some fragments -> In cur fragments -> P cur) ->
      P p) ->
  forall p, P p.
Proof.
  intros step p.
  remember (property_size p) as n eqn:Hn.
  revert p Hn. induction n as [n IH] using lt_wf_ind. intros p ->.
  apply step. intros fragments cur Hall Hin.
  eapply IH; [|reflexivity]. eapply fragment_smaller; eassumption.
Qed.

Lemma allOf_mergeStep (acc cur merged : SchemaProperty) :
  allOf (mergeStep acc cur merged) = later_wins (allOf acc) (allOf merged).
Proof. reflexivity. Qed.

Lemma allOf_fold_merge (fragments : list SchemaProperty) :
  (forall cur, In cur fragments -> allOf (mergeAllOf cur) = None) ->
  forall acc,
    allOf acc = None ->
    allOf (fold_left (fun acc cur => mergeStep acc cur (mergeAllOf cur))
                     fragments acc) = None.
Proof.
  induction fragments as [|cur rest IH]; intros Hfr acc Hacc; cbn [fold_left].
  - exact Hacc.
  - apply IH.
    + intros c Hc. apply Hfr. right. exact Hc.
    + rewrite allOf_mergeStep, Hacc, (Hfr cur (or_introl eq_refl)). reflexivity.
Qed.

Lemma allOf_mergeAllOf (p : SchemaProperty) : allOf (mergeAllOf p) = None.
Proof.
  induction p as [p IH] using fragments_ind.
  rewrite mergeAllOf_eq. destruct (allOf p) as [fragments|] eqn:Hall.
  - apply allOf_fold_merge; [|reflexivity].
    intros cur Hin. eapply IH; [reflexivity|exact Hin].
  - exact Hall.
Qed.

(** The [properties] of the result: the direct [properties] of the
    fragments, spread in order over the property's own. *)
Lemma properties_fold_merge (fragments : list SchemaProperty) :
  forall acc,
    own (properties (fold_left (fun acc cur => mergeStep acc cur (mergeAllOf cur))
                               fragments acc))
    = fold_left (fun a cur => Obj.spread a (own (properties cur)))
                fragments (own (properties acc)).
Proof.
  induction fragments as [|cur rest IH]; intros acc; cbn [fold_left].
  - reflexivity.
  - rewrite IH. reflexivity.
Qed.

Lemma properties_mergeAllOf (p : SchemaProperty) :
  own (properties (mergeAllOf p))
  = fold_left (fun a cur => Obj.spread a (own (properties cur)))
              (match allOf p with Some fragments => fragments | None => [] end)
              (own (properties p)).
Proof.
  rewrite mergeAllOf_eq. destruct (allOf p) as [fragments|].
  - rewrite properties_fold_merge. reflexivity.
  - reflexivity.
Qed.

Lemma get_set {V : Type} (k k' : string) (v : V) (o : Obj.t) :
  Obj.get k (Obj.set k' v o) = if String.eqb k k' then Some v else Obj.get k o.
Proof.
  induction o as [|[k0 v0] o IH]; cbn [Obj.set Obj.get].
  - destruct (String.eqb k k'); reflexivity.
  - destruct (String.eqb_spec k' k0) as [Heq|Hne]; cbn [Obj.get].
    + subst k0. destruct (String.eqb k k'); reflexivity.
    + rewrite IH. destruct (String.eqb_spec k k0) as [Heq|Hne'].
      * subst k0. destruct (String.eqb_spec k k') as [Heq|_]; [congruence|reflexivity].
      * reflexivity.
Qed.

(** Key union: a key of the later object wins, the other keys stay. *)
Lemma get_spread {V : Type} (k : string) (b : @Obj.t V) :
  forall a,
    Obj.get k (Obj.spread a b) =
    match Obj.get k (rev b) with
    | Some v => Some v
    | None => Obj.get k a
    end.
Proof.
  unfold Obj.spread. induction b as [|[k0 v0] b IH] using rev_ind; intros a.
  - reflexivity.
  - rewrite fold_left_app, rev_app_distr. cbn [fold_left rev app Obj.get fst snd].
    rewrite get_set. destruct (String.eqb k k0); [reflexivity|]. apply IH.
Qed.

(** The example of the specification: both keys are kept, whatever
    [X] and [Y] are. *)
Lemma mergeAllOf_direct_properties_union (X Y : SchemaProperty) :
  properties (mergeAllOf (allOfOnly [propertiesOnly [("a", X)];
                                     propertiesOnly [("b", Y)]]))
  = Some [("a", X); ("b", Y)].
Proof. reflexivity. Qed.

(** In general: a fragment without a [properties] field of its own
    contributes no key, whatever its own [allOf] reveals. *)
Lemma mergeAllOf_fragment_without_own_properties (fragment : SchemaProperty) :
  properties fragment = None ->
  properties (mergeAllOf (allOfOnly [fragment])) = Some [].
Proof.
  intros Hnone. rewrite mergeAllOf_eq. cbn [allOf allOfOnly fold_left].
  unfold mergeStep. cbn [with_properties properties without_allOf].
  rewrite Hnone. reflexivity.
Qed.

(** C1 (the code departs from the claim).  A fragment is flattened
    before it is merged, but the [properties] of the result are rebuilt
    from the fragment as written, [cur.properties]: the key [a] that the
    fragment [{allOf: [{properties: {a: X}}]}] only reveals through its own
    [allOf] is in the flattened fragment and is missing from the flattened
    property, whose [properties] map is empty. *)
Theorem mergeAllOf_nested_allOf_properties_lost (X : SchemaProperty) :
  let fragment := allOfOnly [propertiesOnly [("a", X)]] in
  let property := allOfOnly [fragment] in
  Obj.get "a" (own (properties (mergeAllOf fragment))) = Some X
  /\ properties (mergeAllOf property) = Some []
  /\ Obj.get "a" (own (properties (mergeAllOf property))) = None.
Proof. cbv zeta. repeat split. Qed.

(** C5.  Merging the fragments in array order, each of the nine scalar
    fields of the accumulator is overwritten by the flattened fragment
    where the fragment has the field and kept where it has not, so the
    last fragment that has a field decides it; a fragment without [allOf]
    is its own flattened form.  For
    [allOf = [{type: "string"}, {type: "number", default: 1}]] the type is
    ["number"] and the default is [1]. *)
Theorem mergeAllOf_scalars_last_fragment_wins :
  (forall f acc cur,
      field f (mergeStep acc cur (mergeAllOf cur))
      = match field f (mergeAllOf cur) with
        | Some v => Some v
        | None => field f acc
        end)
  /\ (forall f p fragments,
         allOf p = Some fragments ->
         field f (mergeAllOf p)
         = fold_left (fun a cur => match field f (mergeAllOf cur) with
                                   | Some v => Some v
                                   | None => a
                                   end)
                     fragments (field f p))
  /\ (forall f p fragments last v,
         allOf p = Some (fragments ++ [last])%list ->
         field f (mergeAllOf last) = Some v ->
         field f (mergeAllOf p) = Some v)
  /\ (forall cur, allOf cur = None -> mergeAllOf cur = cur)
  /\ (let p := mergeAllOf (allOfOnly [typeOnly "string";
                                      typeAndDefault "number" (JNum 1)]) in
      type p = Some (TypeName "number") /\ default p = Some (JNum 1)).
Proof.
  assert (Hfold : forall f p fragments,
             allOf p = Some fragments ->
             field f (mergeAllOf p)
             = fold_left (fun a cur => later_wins a (field f (mergeAllOf cur)))
                         fragments (field f p)).
  { intros f p fragments Hall.
    rewrite (mergeAllOf_eq p), Hall, field_fold_merge, field_without_allOf.
    reflexivity. }
  split; [|split; [|split; [|split]]].
  - intros f acc cur. apply field_mergeStep.
  - exact Hfold.
  - intros f p fragments last v Hall Hlast.
    rewrite (Hfold f p _ Hall), fold_left_app. cbn [fold_left].
    rewrite Hlast. reflexivity.
  - intros cur Hcur. rewrite mergeAllOf_eq, Hcur. reflexivity.
  - cbv zeta. split; reflexivity.
Qed.

Lemma mergeAllOf_scalars_last_fragment_wins_witness :
  field F_type (mergeAllOf (allOfOnly [typeOnly "string";
                                       typeAndDefault "number" (JNum 1)]))
  = Some (VType (TypeName "number"))
  /\ mergeAllOf (typeOnly "string") = typeOnly "string".
Proof.
  split.
  - apply (proj1 (proj2 (proj2 mergeAllOf_scalars_last_fragment_wins))
             F_type _ [typeOnly "string"] (typeAndDefault "number" (JNum 1))
             (VType (TypeName "number"))); reflexivity.
  - apply (proj1 (proj2 (proj2 (proj2 mergeAllOf_scalars_last_fragment_wins)))).
    reflexivity.
Defined.

(** C6.  [mergeAllOf] returns a property without [allOf] as it is, so it
    is idempotent; with an empty [allOf] it returns the property with
    [allOf] removed and every other field as it was. *)
Theorem mergeAllOf_identity_on_flat (p : SchemaProperty) :
  (allOf p = None -> mergeAllOf p = p)
  /\ mergeAllOf (mergeAllOf p) = mergeAllOf p
  /\ (allOf p = Some [] ->
      mergeAllOf p = without_allOf p
      /\ properties (mergeAllOf p) = properties p
      /\ items (mergeAllOf p) = items p
      /\ examples (mergeAllOf p) = examples p
      /\ forall f, field f (mergeAllOf p) = field f p).
Proof.
  split; [|split].
  - intros Hflat. rewrite mergeAllOf_eq, Hflat. reflexivity.
  - rewrite (mergeAllOf_eq (mergeAllOf p)), allOf_mergeAllOf. reflexivity.
  - intros Hempty. rewrite mergeAllOf_eq, Hempty. cbn [fold_left].
    split; [reflexivity|]. split; [reflexivity|]. split; [reflexivity|].
    split; [reflexivity|]. intros f. apply field_without_allOf.
Qed.

Lemma mergeAllOf_identity_on_flat_witness :
  mergeAllOf (typeOnly "string") = typeOnly "string"
  /\ mergeAllOf (allOfOnly []) = without_allOf (allOfOnly []).
Proof.
  split.
  - apply (proj1 (mergeAllOf_identity_on_flat (typeOnly "string"))). reflexivity.
  - apply (proj2 (proj2 (mergeAllOf_identity_on_flat (allOfOnly [])))). reflexivity.
Defined.

(** ** The example splitter *)

Lemma trimStart_head (s : string) (c : ascii) (r : string) :
  Js.trimStart s = String c r -> Js.is_ws c = false.
Proof.
  induction s as [|a s IH]; cbn [Js.trimStart]; [discriminate|].
  destruct (Js.is_ws a) eqn:Ha; [exact IH|].
  intros Heq. inversion Heq; subst. exact Ha.
Qed.

Lemma trimEnd_head (c : ascii) (s : string) :
  Js.is_ws c = false -> exists r, Js.trimEnd (String c s) = String c r.
Proof.
  intros Hc. cbn [Js.trimEnd]. destruct (Js.trimEnd s) as [|a t].
  - rewrite Hc. eexists; reflexivity.
  - eexists; reflexivity.
Qed.

Lemma trimEnd_head_inv (s : string) (c : ascii) (r : string) :
  Js.trimEnd s = String c r -> exists r', s = String c r'.
Proof.
  destruct s as [|a s]; cbn [Js.trimEnd]; [discriminate|].
  destruct (Js.trimEnd s) as [|b t].
  - destruct (Js.is_ws a); [discriminate|].
    intros Heq. inversion Heq; subst. eexists; reflexivity.
  - intros Heq. inversion Heq; subst. eexists; reflexivity.
Qed.

(** A trimmed string does not start with white space. *)
Lemma trim_head (s : string) (c : ascii) (r : string) :
  Js.trim s = String c r -> Js.is_ws c = false.
Proof.
  unfold Js.trim. intros Heq.
  destruct (trimEnd_head_inv _ _ _ Heq) as [r' Hstart].
  exact (trimStart_head _ _ _ Hstart).
Qed.

Lemma split_lines_not_nil (s : string) : Js.split_lines s <> [].
Proof.
  induction s as [|c s IH]; cbn [Js.split_lines]; [discriminate|].
  destruct (Nat.eqb (nat_of_ascii c) 10); [discriminate|].
  destruct (Js.split_lines s); discriminate.
Qed.

Lemma join_cons (sep x : string) (y : string) (l : list string) :
  Js.join sep (x :: y :: l) = x ++ sep ++ Js.join sep (y :: l).
Proof. reflexivity. Qed.

Lemma join_split_lines (s : string) : Js.join Js.LF (Js.split_lines s) = s.
Proof.
  induction s as [|c s IH]; [reflexivity|].
  cbn [Js.split_lines].
  pose proof (split_lines_not_nil s) as Hne.
  destruct (Js.split_lines s) as [|l ls]; [congruence|].
  destruct (Nat.eqb_spec (nat_of_ascii c) 10) as [Hc|Hc].
  - rewrite join_cons, IH. cbn.
    rewrite <- (ascii_nat_embedding c), Hc. reflexivity.
  - destruct ls as [|l' ls].
    + cbn in IH |- *. rewrite IH. reflexivity.
    + rewrite join_cons. rewrite join_cons in IH. cbn [append]. rewrite IH.
      reflexivity.
Qed.

Lemma fold_min_nonpositive (l : list string) :
  forall z, (z <= 0)%Z ->
    exists z', fold_left (fun min line => Js.Math_min min (Js.Fin (Js.search_non_ws line)))
                         l (Js.Fin z) = Js.Fin z'
               /\ (z' <= 0)%Z.
Proof.
  induction l as [|x l IH]; intros z Hz; cbn [fold_left].
  - exists z. split; [reflexivity|exact Hz].
  - cbn [Js.Math_min]. apply IH. lia.
Qed.

Lemma map_substring_nonpositive (z : Z) (l : list string) :
  (z <= 0)%Z -> map (Js.substring_from (Js.Fin z)) l = l.
Proof.
  intros Hz. unfold Js.substring_from.
  replace (Z.to_nat z) with 0 by lia.
  induction l as [|x l IH]; [reflexivity|]. cbn [map]. rewrite IH.
  destruct x; reflexivity.
Qed.

(** Re-indenting a trimmed block leaves it as it is: its first line
    starts in column zero, so the minimum indentation is zero. *)
Lemma reindent_trimmed (block : string) :
  let codeBlock := Js.trim block in
  let lines := Js.split_lines codeBlock in
  let minIndentation :=
    fold_left (fun min line => Js.Math_min min (Js.Fin (Js.search_non_ws line)))
              (filter (fun line => Splitter.truthy_string (Js.trim line)) lines)
              Js.Infinity in
  Js.join Js.LF (map (Js.substring_from minIndentation) lines) = codeBlock.
Proof.
  cbv zeta. destruct (Js.trim block) as [|c r] eqn:Htrim; [reflexivity|].
  pose proof (trim_head _ _ _ Htrim) as Hc.
  assert (Hlf : Nat.eqb (nat_of_ascii c) 10 = false).
  { destruct (Nat.eqb_spec (nat_of_ascii c) 10) as [Heq|]; [|reflexivity].
    unfold Js.is_ws in Hc. cbv zeta in Hc. rewrite Heq in Hc. discriminate. }
  pose proof (join_split_lines (String c r)) as Hjoin.
  cbn [Js.split_lines] in Hjoin |- *. rewrite Hlf in Hjoin |- *.
  pose proof (split_lines_not_nil r) as Hne.
  destruct (Js.split_lines r) as [|l0 ls]; [congruence|].
  cbn [filter].
  assert (Hkeep : Splitter.truthy_string (Js.trim (String c l0)) = true).
  { unfold Js.trim. cbn [Js.trimStart]. rewrite Hc.
    destruct (trimEnd_head c l0 Hc) as [r' ->]. reflexivity. }
  rewrite Hkeep. cbn [fold_left Js.Math_min Js.search_non_ws]. rewrite Hc.
  destruct (fold_min_nonpositive
              (filter (fun line => Splitter.truthy_string (Js.trim line)) ls)
              0%Z (Z.le_refl 0)) as [z' [-> Hz']].
  rewrite (map_substring_nonpositive z' _ Hz'). exact Hjoin.
Qed.

(** Whatever the input, the code block is the trimmed text between the
    fences: the indentation that is left after the trim is kept. *)
Lemma parseContent_keeps_indentation (input before m after : string) :
  Splitter.match_codeRegex input = Some (before, m, after) ->
  Splitter.parseContent (Some input)
  = Ok {| Splitter.briefing := Js.trim (before ++ after);
          Splitter.codeBlock := Js.trim (Splitter.strip_fences 0 m) |}.
Proof.
  intros Hmatch. unfold Splitter.parseContent. rewrite Hmatch.
  rewrite (reindent_trimmed (Splitter.strip_fences 0 m)). reflexivity.
Qed.

(** C4 (the code departs from the claim).  On the example of the
    specification the commentary is ["Intro text."], but the code block is
    trimmed before its indentation is measured: the first line has lost
    its two spaces by then, the minimum is zero, and the second line keeps
    its four spaces instead of the two the claim expects. *)
Theorem parseContent_spec_example :
  let input :=
    "Intro text." ++ Js.LF ++ "```yaml" ++ Js.LF ++ "  foo: 1" ++ Js.LF
      ++ "    bar: 2" ++ Js.LF ++ "```" in
  Splitter.parseContent (Some input)
  = Ok {| Splitter.briefing := "Intro text.";
          Splitter.codeBlock := "foo: 1" ++ Js.LF ++ "    bar: 2" |}
  /\ Splitter.parseContent (Some input)
     <> Ok {| Splitter.briefing := "Intro text.";
              Splitter.codeBlock := "foo: 1" ++ Js.LF ++ "  bar: 2" |}.
Proof.
  cbv zeta. split.
  - vm_compute. reflexivity.
  - vm_compute. discriminate.
Qed.

Lemma parseContent_string (input : string) :
  exists parsed, Splitter.parseContent (Some input) = Ok parsed.
Proof. unfold Splitter.parseContent. eexists. reflexivity. Qed.

Lemma mapM_tabs (inputs : list string) :
  forall index,
  exists items,
    mapM (fun item : res Node => item)
         (mapi_from index
            (fun example index =>
               parsed <- Splitter.parseContent (Some example) ;;
               Ok (Elem "TabItem"
                     [("key", PStr (Js.String_of_nat index));
                      ("value", PStr ("example-" ++ Js.String_of_nat index))]
                     [Elem "div" [] (exampleBody parsed)]))
            inputs) = Ok items
    /\ length items = length inputs.
Proof.
  induction inputs as [|example rest IH]; intros index; cbn [mapi_from mapM].
  - exists []. split; reflexivity.
  - destruct (parseContent_string example) as [parsed ->]. cbn [bind].
    destruct (IH (S index)) as [items [-> Hlen]]. cbn [bind].
    eexists. split; [reflexivity|]. cbn [length]. rewrite Hlen. reflexivity.
Qed.

(** On every array with at least one example the component returns: the
    tabless example for one, a tab per example for more. *)
Lemma MarkdownCodeSeparator_total_on_nonempty (examples : list string)
    (inputKey : string) :
  examples <> [] ->
  exists node, MarkdownCodeSeparator (Some examples) inputKey = Ok node.
Proof.
  intros Hne. unfold MarkdownCodeSeparator.
  destruct (Nat.ltb 1 (length examples)).
  - destruct (mapM_tabs examples 0) as [items [-> _]]. cbn [bind].
    eexists. reflexivity.
  - destruct examples as [|example rest]; [congruence|]. cbn [nth_error].
    destruct (parseContent_string example) as [parsed ->]. cbn [bind].
    eexists. reflexivity.
Qed.

(** C10 (the code departs from the claim).  The placeholder is only for
    an [examples] that is not an array.  With the empty array the
    single-example branch reads [examples[0]], which is [undefined], and
    [parseContent] throws on it: no placeholder, no tabs and no tabless
    example are produced, and the error goes through [PropertyContent]
    and [PropertiesList]. *)
Theorem MarkdownCodeSeparator_empty_examples_throws (inputKey : string) :
  let thrown :=
    TypeError "Cannot read properties of undefined (reading 'match')" in
  MarkdownCodeSeparator (Some []) inputKey = Throw thrown
  /\ (forall node, MarkdownCodeSeparator (Some []) inputKey <> Ok node)
  /\ PropertyContent (examplesOnly []) = Throw thrown
  /\ PropertiesList [("provider", examplesOnly [])] false = Throw thrown.
Proof.
  cbv zeta. split; [reflexivity|]. split; [intros node; discriminate|].
  split; reflexivity.
Qed.

(** ** The details table *)

Lemma tableRows_nil (p : SchemaProperty) :
  tableRows p = [] <->
  truthy_type (type p) = false /\ default p = None /\ enum p = None
  /\ optionsAre p = None /\ truthy_str (pattern p) = false.
Proof.
  unfold tableRows, truthy_str.
  destruct (type p) as [t|], (default p), (enum p), (optionsAre p),
    (pattern p) as [pat|];
    try destruct (truthy_type (Some t));
    try destruct (Splitter.truthy_string pat);
    cbn; intuition (try discriminate; auto).
Qed.

(** The table is there exactly when [hasTableData] holds. *)
Lemma PropertyContent_tables (p : SchemaProperty) (content : Node) :
  PropertyContent p = Ok content ->
  tablesOf content = when (hasTableData p) (detailsTable p).
Proof.
  unfold PropertyContent. intros Hrender.
  assert (Hshape : exists block,
             Forall (fun n => hasTag "table" n = false) block
             /\ content =
                Elem "div" [("className", PStr "property-content")]
                  (match description p with
                   | Some text =>
                       when (Splitter.truthy_string text)
                         (Elem "div" [("className", PStr "property-description")]
                            [Markdown text])
                   | None => []
                   end
                   ++ when (hasTableData p) (detailsTable p)
                   ++ block
                   ++ match note p with
                      | Some text =>
                          when (Splitter.truthy_string text)
                            (Elem "Admonition" [("type", PStr "note")] [Markdown text])
                      | None => []
                      end)%list).
  { destruct (examples p) as [l|].
    - destruct (MarkdownCodeSeparator (Some l) "examples") as [separator|e];
        cbn [bind] in Hrender; [|discriminate].
      injection Hrender as <-.
      exists [Elem "div" [("className", PStr "property-examples")] [separator]].
      split; [|reflexivity]. constructor; [reflexivity|constructor].
    - cbn [bind] in Hrender. injection Hrender as <-.
      exists []. split; [constructor|reflexivity]. }
  destruct Hshape as [block [Hblock ->]].
  unfold tablesOf. cbn [children]. rewrite !filter_app.
  assert (Hnone : filter (hasTag "table") block = []).
  { clear Hrender. induction Hblock as [|n block Hn _ IH]; [reflexivity|].
    cbn [filter]. rewrite Hn. exact IH. }
  rewrite Hnone.
  destruct (description p) as [text|]; [destruct (Splitter.truthy_string text)|];
    (destruct (note p) as [text'|]; [destruct (Splitter.truthy_string text')|]);
    destruct (hasTableData p); reflexivity.
Qed.

(** C7 (the code departs from the claim).  [hasTableData] also counts
    [deprecated], for which the table has no row: a property that is
    deprecated and has none of [type], [default], [enum], [optionsAre],
    [pattern] gets a table whose body is empty, where the claim omits the
    table. *)
Theorem PropertyContent_deprecated_only_empty_table
    (p : SchemaProperty) (content : Node) :
  type p = None -> default p = None -> enum p = None ->
  optionsAre p = None -> pattern p = None ->
  deprecated p = Some true ->
  PropertyContent p = Ok content ->
  tableRows p = []
  /\ tablesOf content =
     [Elem "table" [("className", PStr "property-details"); tableStyle]
        [Elem "style" [] [Text tableCss]; Elem "tbody" [] []]].
Proof.
  intros Htype Hdefault Henum Hoptions Hpattern Hdeprecated Hrender.
  assert (Hrows : tableRows p = []).
  { apply tableRows_nil. unfold truthy_str.
    rewrite Htype, Hdefault, Henum, Hoptions, Hpattern. repeat split. }
  split; [exact Hrows|].
  rewrite (PropertyContent_tables p content Hrender).
  unfold hasTableData, detailsTable.
  rewrite Hrows, Htype, Hdefault, Henum, Hoptions, Hpattern, Hdeprecated.
  reflexivity.
Qed.

Lemma PropertyContent_deprecated_only_empty_table_witness :
  tableRows (deprecatedOnly true) = []
  /\ tablesOf (Elem "div" [("className", PStr "property-content")]
                 [detailsTable (deprecatedOnly true)])
     = [Elem "table" [("className", PStr "property-details"); tableStyle]
          [Elem "style" [] [Text tableCss]; Elem "tbody" [] []]].
Proof.
  apply (PropertyContent_deprecated_only_empty_table (deprecatedOnly true));
    reflexivity.
Defined.

(** ** The loader *)

Lemma startsWith_app (p s : string) : Js.startsWith p (p ++ s) = true.
Proof.
  induction p as [|c p IH]; [reflexivity|].
  cbn [append Js.startsWith]. rewrite Ascii.eqb_refl. exact IH.
Qed.

Lemma includes_here (p s : string) : Js.includes p (p ++ s) = true.
Proof.
  destruct (p ++ s) eqn:Heq; cbn [Js.includes];
    rewrite <- Heq, startsWith_app; reflexivity.
Qed.

Lemma includes_app (p a s : string) :
  Js.includes p s = true -> Js.includes p (a ++ s) = true.
Proof.
  intros Hs. induction a as [|c a IH]; [exact Hs|].
  cbn [append Js.includes]. rewrite IH.
  destruct (Js.startsWith p (String c (a ++ s))); reflexivity.
Qed.

(** The first variant: a response that is not [ok] ends in the error
    view, and the message holds the status code. *)
Lemma fetchSchema_non_success (Raw : Type) (resolve : Raw -> res Schema.t)
    (r : Response Raw) :
  ok r = false ->
  let message :=
    "Failed to fetch schema: " ++ Js.String_of_nat (status r) ++ " "
      ++ statusText r in
  view (useSchema Raw resolve (Ok r)) = ErrorView message
  /\ Js.includes (Js.String_of_nat (status r)) message = true.
Proof.
  intros Hok. cbv zeta. split.
  - unfold useSchema, fetchSchema, try_catch_finally. cbn [bind]. rewrite Hok.
    reflexivity.
  - apply (includes_app _ "Failed to fetch schema: "). apply includes_here.
Qed.

(** C9 (the code departs from the claim).  The second variant has no
    test of [response.ok]: with a status that is not a success, a body
    that parses and resolves ends in [Ready], and a body that does not
    parse ends in the error of the parser, whatever the status. *)
Theorem Variant2_fetchSchema_ignores_status (Raw : Type)
    (resolve : Raw -> res Schema.t) (r : Response Raw) :
  ok r = false ->
  (forall d s, json r = Ok d -> resolve d = Ok s ->
               view (Variant2.useSchema Raw resolve (Ok r)) = Ready s)
  /\ (forall e, json r = Throw e ->
                error (Variant2.useSchema Raw resolve (Ok r)) = Some (message_of e)).
Proof.
  intros _. unfold Variant2.useSchema, Variant2.fetchSchema, try_catch_finally.
  split.
  - intros d s Hjson Hresolve. cbn [bind]. rewrite Hjson. cbn [bind].
    rewrite Hresolve. reflexivity.
  - intros e Hjson. cbn [bind]. rewrite Hjson. reflexivity.
Qed.

Lemma Variant2_fetchSchema_ignores_status_witness :
  let r := {| ok := false; status := 404; statusText := "Not Found";
              json := Ok defaultSchema |} in
  view (Variant2.useSchema Schema.t Ok (Ok r)) = Ready defaultSchema.
Proof.
  cbv zeta.
  apply (proj1 (Variant2_fetchSchema_ignores_status Schema.t Ok
                  {| ok := false; status := 404; statusText := "Not Found";
                     json := Ok defaultSchema |} eq_refl)
           defaultSchema defaultSchema); reflexivity.
Defined.

(** ** [PropertiesList]: the recursion is well founded *)

Lemma In_insert_index {V : Type} (e x : N * (string * V)) (l : list (N * (string * V))) :
  In x (Obj.insert_index e l) -> x = e \/ In x l.
Proof.
  induction l as [|e' l IH]; cbn [Obj.insert_index].
  - intros [<-|[]]. left; reflexivity.
  - destruct (fst e <? fst e')%N.
    + intros [<-|Hin]; [left; reflexivity|right; exact Hin].
    + intros [<-|Hin]; [right; left; reflexivity|].
      destruct (IH Hin) as [->|Hl]; [left; reflexivity|right; right; exact Hl].
Qed.

Lemma In_index_entries {V : Type} (o : @Obj.t V) (x : N * (string * V)) :
  In x (Obj.index_entries o) -> In (snd x) o.
Proof.
  induction o as [|kv o IH]; cbn [Obj.index_entries]; [intros []|].
  destruct (Obj.array_index (fst kv)) as [n|].
  - intros Hin. destruct (In_insert_index _ _ _ Hin) as [->|Hin'].
    + left; reflexivity.
    + right. exact (IH Hin').
  - intros Hin. right. exact (IH Hin).
Qed.

(** [Object.entries] lists entries of the object. *)
Lemma In_entries {V : Type} (o : @Obj.t V) (e : string * V) :
  In e (Obj.entries o) -> In e o.
Proof.
  unfold Obj.entries, Obj.string_entries. intros Hin.
  apply in_app_or in Hin. destruct Hin as [Hin|Hin].
  - apply in_map_iff in Hin. destruct Hin as [x [<- Hx]].
    exact (In_index_entries o x Hx).
  - apply filter_In in Hin. exact (proj1 Hin).
Qed.

Lemma properties_size_set (k : string) (v : SchemaProperty) (o : Properties) :
  properties_size (Obj.set k v o) <= properties_size o + property_size v.
Proof.
  unfold properties_size.
  induction o as [|[k' v'] o IH]; cbn [Obj.set].
  - simpl. lia.
  - destruct (String.eqb k k'); simpl in *; lia.
Qed.

Lemma properties_size_spread (b : Properties) :
  forall a, properties_size (Obj.spread a b) <= properties_size a + properties_size b.
Proof.
  unfold Obj.spread.
  induction b as [|[k v] b IH]; intros a; cbn [fold_left fst snd].
  - lia.
  - specialize (IH (Obj.set k v a)).
    pose proof (properties_size_set k v a) as Hset.
    unfold properties_size in *. simpl in *. lia.
Qed.

Lemma own_properties_smaller (p : SchemaProperty) :
  properties_size (own (properties p)) < property_size p.
Proof. rewrite (property_size_eq p). lia. Qed.

Lemma properties_size_fold_spread (fragments : list SchemaProperty) :
  forall acc,
    properties_size
      (fold_left (fun a cur => Obj.spread a (own (properties cur))) fragments acc)
    <= properties_size acc + list_sum (map property_size fragments).
Proof.
  induction fragments as [|cur rest IH]; intros acc; cbn [fold_left].
  - simpl. lia.
  - specialize (IH (Obj.spread acc (own (properties cur)))).
    pose proof (properties_size_spread (own (properties cur)) acc).
    pose proof (own_properties_smaller cur).
    simpl. lia.
Qed.

(** The properties of the flattened property are smaller than the
    property: they are taken from it and from its fragments. *)
Lemma merged_properties_smaller (p : SchemaProperty) :
  properties_size (own (properties (mergeAllOf p))) < property_size p.
Proof.
  rewrite properties_mergeAllOf, (property_size_eq p).
  destruct (allOf p) as [fragments|].
  - pose proof (properties_size_fold_spread fragments (own (properties p))). lia.
  - cbn [fold_left]. lia.
Qed.

Lemma mapM_ext_in {A B : Type} (f g : A -> res B) (l : list A) :
  (forall x, In x l -> f x = g x) -> mapM f l = mapM g l.
Proof.
  induction l as [|a l IH]; intros Hext; [reflexivity|].
  cbn [mapM]. rewrite (Hext a (or_introl eq_refl)), IH; [reflexivity|].
  intros x Hx. apply Hext. right. exact Hx.
Qed.

Lemma mapM_Forall2 {A B : Type} (f : A -> res B) (l : list A) :
  forall items, mapM f l = Ok items -> Forall2 (fun x y => f x = Ok y) l items.
Proof.
  induction l as [|a l IH]; intros items; cbn [mapM].
  - intros Heq. injection Heq as <-. constructor.
  - destruct (f a) as [b|e] eqn:Hfa; cbn [bind]; [|discriminate].
    destruct (mapM f l) as [bs|e]; cbn [bind]; [|discriminate].
    intros Heq. injection Heq as <-. constructor; [exact Hfa|].
    apply IH. reflexivity.
Qed.

Lemma PropertiesList_body_ext (self1 self2 : Properties -> bool -> res Node)
    (props : Properties) (sub_heading : bool) :
  (forall key value,
      In (key, value) (Obj.entries props) ->
      self1 (own (properties (mergeAllOf value))) true
      = self2 (own (properties (mergeAllOf value))) true) ->
  PropertiesList_body self1 props sub_heading
  = PropertiesList_body self2 props sub_heading.
Proof.
  intros Hself. unfold PropertiesList_body. f_equal.
  apply mapM_ext_in. intros [key value] Hin. rewrite (Hself key value Hin).
  reflexivity.
Qed.

Lemma entry_value_smaller (props : Properties) (key : string) (value : SchemaProperty) :
  In (key, value) (Obj.entries props) ->
  properties_size (own (properties (mergeAllOf value))) < properties_size props.
Proof.
  intros Hin. apply In_entries in Hin.
  pose proof (list_sum_In (fun kv : string * SchemaProperty => property_size (snd kv))
                          props (key, value) Hin) as Hle.
  pose proof (merged_properties_smaller value).
  unfold properties_size in *. cbn [snd] in Hle. lia.
Qed.

Lemma PropertiesList_rec_stable (n : nat) :
  forall m props sub_heading,
    properties_size props < n -> properties_size props < m ->
    PropertiesList_rec n props sub_heading = PropertiesList_rec m props sub_heading.
Proof.
  induction n as [|n IH]; intros m props sub_heading Hn Hm; [lia|].
  destruct m as [|m]; [lia|]. cbn [PropertiesList_rec].
  apply PropertiesList_body_ext. intros key value Hin.
  pose proof (entry_value_smaller props key value Hin).
  apply IH; lia.
Qed.

(** The equation of the source: [PropertiesList] is its body applied to
    itself; the counter is never exhausted. *)
Lemma PropertiesList_unfold (props : Properties) (sub_heading : bool) :
  PropertiesList props sub_heading
  = PropertiesList_body PropertiesList props sub_heading.
Proof.
  unfold PropertiesList at 1. cbn [PropertiesList_rec].
  apply PropertiesList_body_ext. intros key value Hin.
  pose proof (entry_value_smaller props key value Hin).
  unfold PropertiesList. apply PropertiesList_rec_stable; lia.
Qed.

(** ** The sections of [PropertiesList] *)

Lemma PropertyContent_tag (p : SchemaProperty) (content : Node) :
  PropertyContent p = Ok content -> tagOf content = Some "div".
Proof.
  unfold PropertyContent.
  destruct (examples p) as [l|].
  - destruct (MarkdownCodeSeparator (Some l) "examples"); cbn [bind];
      [|discriminate].
    intros Heq. injection Heq as <-. reflexivity.
  - cbn [bind]. intros Heq. injection Heq as <-. reflexivity.
Qed.

Lemma firstFragmentHasProperties_spec (value : SchemaProperty) :
  firstFragmentHasProperties value = true <->
  exists first rest props,
    allOf value = Some (first :: rest) /\ properties first = Some props.
Proof.
  unfold firstFragmentHasProperties. split.
  - destruct (allOf value) as [[|first rest]|]; try discriminate.
    destruct (properties first) as [props|] eqn:Hprops; [|discriminate].
    intros _. exists first, rest, props. split; [reflexivity|exact Hprops].
  - intros [first [rest [props [-> Hprops]]]]. rewrite Hprops. reflexivity.
Qed.

Lemma PropertiesList_sections (props : Properties) (sub_heading : bool)
    (node : Node) :
  PropertiesList props sub_heading = Ok node ->
  Forall2 (sectionOf sub_heading) (Obj.entries props) (children node).
Proof.
  rewrite PropertiesList_unfold. unfold PropertiesList_body.
  match goal with
  | |- bind (mapM ?F _) _ = _ -> _ => set (render := F)
  end.
  destruct (mapM render (Obj.entries props)) as [items|e] eqn:Hitems;
    cbn [bind]; [|discriminate].
  intros Heq. injection Heq as <-. cbn [children Fragment].
  apply mapM_Forall2 in Hitems.
  eapply Forall2_impl; [|exact Hitems].
  intros [key value] section. unfold render, sectionOf. cbn [fst snd].
  destruct (PropertyContent value) as [content|e] eqn:Hcontent; cbn [bind];
    [|discriminate].
  pose proof (PropertyContent_tag value content Hcontent) as Htag.
  assert (Hnot : hasTag "Details" content = false).
  { unfold hasTag. rewrite Htag. reflexivity. }
  destruct (firstFragmentHasProperties value).
  - destruct (PropertiesList (own (properties (mergeAllOf value))) true)
      as [nested|e] eqn:Hnested; cbn [bind]; [|discriminate].
    intros Heq. injection Heq as <-. split; [reflexivity|].
    exists nested. split; [reflexivity|].
    unfold detailsOf. cbn [children app filter]. rewrite Hnot. reflexivity.
  - cbn [bind]. intros Heq. injection Heq as <-. split; [reflexivity|].
    unfold detailsOf. cbn [children app filter]. rewrite Hnot. reflexivity.
Qed.

(** The sections follow [Object.entries], the table of contents its
    sorted copy. *)
Lemma PropertiesList_keys (props : Properties) (sub_heading : bool) (node : Node) :
  PropertiesList props sub_heading = Ok node ->
  childKeys node = map fst (Obj.entries props).
Proof.
  intros Hrender. apply PropertiesList_sections in Hrender.
  unfold childKeys.
  induction Hrender as [|entry section entries sections [Hkey _] _ IH];
    [reflexivity|].
  cbn [flat_map map]. rewrite Hkey, IH. reflexivity.
Qed.

Lemma SchemaToc_keys (schema : Schema.t) :
  childKeys (SchemaToc schema)
  = map fst (sort (Obj.entries (Schema.properties schema))).
Proof.
  unfold SchemaToc, childKeys. cbn [children].
  induction (sort (Obj.entries (Schema.properties schema))) as [|[key value] l IH];
    [reflexivity|].
  cbn [map flat_map fst]. rewrite IH. reflexivity.
Qed.

(** C2 (the code departs from the claim).  [SchemaToc] sorts the
    entries, [PropertiesList] maps over them as [Object.entries] gives
    them: for [{zeta: ..., alpha: ...}] the table of contents lists
    [alpha] first and the sections list [zeta] first. *)
Theorem sections_in_document_order (zeta alpha : SchemaProperty) (node : Node) :
  let props := [("zeta", zeta); ("alpha", alpha)] in
  let schema :=
    {| Schema.title := "ConfigSchema"; Schema.description := "d";
       Schema.type := "object"; Schema.properties := props;
       Schema.required := None |} in
  PropertiesList props false = Ok node ->
  childKeys (SchemaToc schema) = ["alpha"; "zeta"]
  /\ childKeys node = ["zeta"; "alpha"].
Proof.
  cbv zeta. intros Hrender. split.
  - rewrite SchemaToc_keys. reflexivity.
  - rewrite (PropertiesList_keys _ _ _ Hrender). reflexivity.
Qed.

Lemma sections_in_document_order_witness :
  exists node,
    PropertiesList [("zeta", emptyProperty); ("alpha", emptyProperty)] false = Ok node
    /\ childKeys node = ["zeta"; "alpha"].
Proof.
  eexists. split; [reflexivity|].
  apply (sections_in_document_order emptyProperty emptyProperty). reflexivity.
Defined.

(** C3, as the code has it.  The "Available Options" section of an entry
    is there exactly when [allOf] is a non-empty array whose first
    fragment has a [properties] field; it then holds [PropertiesList],
    with sub-headings, of the [properties] of the flattened entry.  In
    every other case nothing is emitted for this step. *)
Theorem PropertiesList_available_options (props : Properties)
    (sub_heading : bool) (node : Node) :
  PropertiesList props sub_heading = Ok node ->
  Forall2
    (fun (entry : string * SchemaProperty) (section : Node) =>
       keyOf section = Some (fst entry)
       /\ ((exists first rest fields,
               allOf (snd entry) = Some (first :: rest)
               /\ properties first = Some fields) ->
           exists nested,
             PropertiesList (own (properties (mergeAllOf (snd entry)))) true
             = Ok nested
             /\ detailsOf section = [availableOptions nested])
       /\ (~ (exists first rest fields,
                 allOf (snd entry) = Some (first :: rest)
                 /\ properties first = Some fields) ->
           detailsOf section = []))
    (Obj.entries props) (children node).
Proof.
  intros Hrender. apply PropertiesList_sections in Hrender.
  eapply Forall2_impl; [|exact Hrender].
  intros entry section [Hkey Hoptions]. split; [exact Hkey|].
  pose proof (firstFragmentHasProperties_spec (snd entry)) as Hspec.
  destruct (firstFragmentHasProperties (snd entry)); split.
  - intros _. exact Hoptions.
  - intros Hno. exfalso. apply Hno. apply Hspec. reflexivity.
  - intros Hyes. apply Hspec in Hyes. discriminate.
  - intros _. exact Hoptions.
Qed.

Lemma PropertiesList_available_options_witness :
  exists node,
    PropertiesList
      [("provider", allOfOnly [propertiesOnly [("region", emptyProperty)]])]
      false = Ok node
    /\ Forall2
         (fun (entry : string * SchemaProperty) (section : Node) =>
            keyOf section = Some (fst entry)
            /\ ((exists first rest fields,
                    allOf (snd entry) = Some (first :: rest)
                    /\ properties first = Some fields) ->
                exists nested,
                  PropertiesList (own (properties (mergeAllOf (snd entry)))) true
                  = Ok nested
                  /\ detailsOf section = [availableOptions nested])
            /\ (~ (exists first rest fields,
                      allOf (snd entry) = Some (first :: rest)
                      /\ properties first = Some fields) ->
                detailsOf section = []))
         (Obj.entries
            [("provider", allOfOnly [propertiesOnly [("region", emptyProperty)]])])
         (children node).
Proof.
  eexists. split; [reflexivity|].
  apply (PropertiesList_available_options
           [("provider", allOfOnly [propertiesOnly [("region", emptyProperty)]])]
           false).
  reflexivity.
Defined.

(** C3 fails as stated: the flattened property below has the property
    [a], from its second fragment, and no section is emitted; and a first
    fragment with an empty [properties] gives a section with nothing in
    it. *)
Lemma available_options_not_by_flattened_properties :
  let late := allOfOnly [typeOnly "string"; propertiesOnly [("a", emptyProperty)]] in
  let hollow := allOfOnly [propertiesOnly []] in
  (own (properties (mergeAllOf late)) = [("a", emptyProperty)]
   /\ exists node section,
       PropertiesList [("p", late)] false = Ok node
       /\ children node = [section]
       /\ detailsOf section = [])
  /\ (own (properties (mergeAllOf hollow)) = []
      /\ exists node section,
          PropertiesList [("p", hollow)] false = Ok node
          /\ children node = [section]
          /\ detailsOf section = [availableOptions (Fragment [])]).
Proof.
  cbv zeta. split; (split; [reflexivity|]);
    eexists; eexists; (split; [reflexivity|]); split; reflexivity.
Qed.

(** ** Deprecated properties *)




(* ================================================================== *)
(** * Further properties of the code *)

(** ** Objects: lookup, keys and [Object.entries] *)

Lemma get_In {V : Type} (k : string) (v : V) (o : @Obj.t V) :
  Obj.get k o = Some v -> In (k, v) o.
Proof.
  induction o as [|[k' v'] o IH]; cbn [Obj.get]; [discriminate|].
  destruct (String.eqb_spec k k') as [->|_].
  - intros Heq. injection Heq as ->. left; reflexivity.
  - intros Hget. right. exact (IH Hget).
Qed.

Lemma get_None {V : Type} (k : string) (o : @Obj.t V) :
  Obj.get k o = None <-> ~ In k (keys o).
Proof.
  unfold keys. induction o as [|[k' v'] o IH]; cbn [Obj.get map fst In].
  - split; [intros _ []|reflexivity].
  - destruct (String.eqb_spec k k') as [->|Hne].
    + split; [discriminate|]. intros Hnot. exfalso. apply Hnot. left; reflexivity.
    + rewrite IH. split.
      * intros Hnot [Heq|Hin]; [congruence|exact (Hnot Hin)].
      * intros Hnot Hin. apply Hnot. right. exact Hin.
Qed.

Lemma In_get {V : Type} (k : string) (v : V) (o : @Obj.t V) :
  NoDup (keys o) -> In (k, v) o -> Obj.get k o = Some v.
Proof.
  unfold keys. induction o as [|[k' v'] o IH]; intros Hnodup Hin; [contradiction|].
  cbn [map fst] in Hnodup. inversion Hnodup as [|? ? Hnotin Hnodup']; subst.
  cbn [Obj.get]. destruct Hin as [Heq|Hin].
  - injection Heq as -> ->. rewrite String.eqb_refl. reflexivity.
  - destruct (String.eqb_spec k k') as [->|_].
    + exfalso. apply Hnotin. apply in_map_iff. exists (k', v). split; [reflexivity|exact Hin].
    + exact (IH Hnodup' Hin).
Qed.

Lemma get_rev {V : Type} (k : string) (o : @Obj.t V) :
  NoDup (keys o) -> Obj.get k (rev o) = Obj.get k o.
Proof.
  intros Hnodup.
  assert (Hrev : NoDup (keys (rev o))).
  { unfold keys. rewrite map_rev. apply NoDup_rev. exact Hnodup. }
  destruct (Obj.get k o) as [v|] eqn:Hget.
  - apply In_get; [exact Hrev|]. apply -> in_rev. exact (get_In k v o Hget).
  - apply get_None. apply get_None in Hget. intros Hin. apply Hget.
    unfold keys in *. rewrite map_rev in Hin. apply in_rev in Hin. exact Hin.
Qed.

(** [o[k] = v] keeps the keys where they are; a new key goes last. *)
Lemma keys_set {V : Type} (k : string) (v : V) (o : @Obj.t V) :
  keys (Obj.set k v o)
  = if existsb (String.eqb k) (keys o) then keys o else (keys o ++ [k])%list.
Proof.
  unfold keys. induction o as [|[k' v'] o IH]; cbn [Obj.set map fst existsb app].
  - reflexivity.
  - destruct (String.eqb_spec k k') as [->|Hne]; cbn [map fst orb].
    + reflexivity.
    + rewrite IH. destruct (existsb (String.eqb k) (map fst o)); reflexivity.
Qed.

Lemma NoDup_set {V : Type} (k : string) (v : V) (o : @Obj.t V) :
  NoDup (keys o) -> NoDup (keys (Obj.set k v o)).
Proof.
  intros Hnodup. rewrite keys_set.
  destruct (existsb (String.eqb k) (keys o)) eqn:Hex; [exact Hnodup|].
  apply NoDup_app; [exact Hnodup|repeat constructor; intros []|].
  intros x Hx [Heq|[]]. subst x.
  assert (Hin : existsb (String.eqb k) (keys o) = true).
  { apply existsb_exists. exists k. split; [exact Hx|apply String.eqb_refl]. }
  congruence.
Qed.

Lemma NoDup_spread {V : Type} (b : @Obj.t V) :
  forall a, NoDup (keys a) -> NoDup (keys (Obj.spread a b)).
Proof.
  unfold Obj.spread. induction b as [|[k v] b IH]; intros a Ha; cbn [fold_left].
  - exact Ha.
  - apply IH. apply NoDup_set. exact Ha.
Qed.

Lemma keys_spread_prefix {V : Type} (b : @Obj.t V) :
  forall a, exists added, keys (Obj.spread a b) = (keys a ++ added)%list.
Proof.
  unfold Obj.spread. induction b as [|[k v] b IH]; intros a; cbn [fold_left fst snd].
  - exists []. rewrite app_nil_r. reflexivity.
  - destruct (IH (Obj.set k v a)) as [added Hadded]. rewrite Hadded, keys_set.
    destruct (existsb (String.eqb k) (keys a)).
    + exists added. reflexivity.
    + exists (k :: added). rewrite <- app_assoc. reflexivity.
Qed.

Lemma Permutation_insert_index {V : Type} (e : N * (string * V))
    (l : list (N * (string * V))) :
  Permutation (Obj.insert_index e l) (e :: l).
Proof.
  induction l as [|e' l IH]; cbn [Obj.insert_index]; [reflexivity|].
  destruct (fst e <? fst e')%N; [reflexivity|].
  rewrite IH. apply perm_swap.
Qed.

(** [Object.entries] lists every entry of the object once. *)
Lemma Permutation_entries {V : Type} (o : @Obj.t V) :
  Permutation (Obj.entries o) o.
Proof.
  unfold Obj.entries, Obj.string_entries.
  induction o as [|kv o IH]; [reflexivity|].
  cbn [Obj.index_entries filter].
  destruct (Obj.array_index (fst kv)) as [n|].
  - rewrite Permutation_insert_index. cbn [map snd app].
    apply perm_skip. exact IH.
  - rewrite <- Permutation_middle. apply perm_skip. exact IH.
Qed.

(** ** [mergeAllOf]: the shape of the flattened property *)

Lemma properties_defined_fold (fragments : list SchemaProperty) :
  forall acc,
    properties acc <> None ->
    properties (fold_left (fun acc cur => mergeStep acc cur (mergeAllOf cur))
                          fragments acc) <> None.
Proof.
  induction fragments as [|cur rest IH]; intros acc Hacc; cbn [fold_left].
  - exact Hacc.
  - apply IH. discriminate.
Qed.

(** X1.  A flattened property has no [allOf] left, at any depth of
    nesting of the input; and as soon as one fragment was merged it has a
    [properties] object, also when neither the property nor a fragment
    had one. *)
Theorem mergeAllOf_result_shape (p : SchemaProperty) :
  allOf (mergeAllOf p) = None
  /\ (forall first rest,
         allOf p = Some (first :: rest) -> properties (mergeAllOf p) <> None).
Proof.
  split; [apply allOf_mergeAllOf|].
  intros first rest Hall. rewrite mergeAllOf_eq, Hall. cbn [fold_left].
  apply properties_defined_fold. discriminate.
Qed.

Lemma mergeAllOf_result_shape_witness :
  properties (mergeAllOf (allOfOnly [typeOnly "string"])) <> None.
Proof.
  apply (proj2 (mergeAllOf_result_shape (allOfOnly [typeOnly "string"]))
           (typeOnly "string") []).
  reflexivity.
Defined.

Lemma get_fold_spread (k : string) (fragments : list SchemaProperty) :
  Forall (fun cur => NoDup (keys (own (properties cur)))) fragments ->
  forall acc,
    Obj.get k (fold_left (fun a cur => Obj.spread a (own (properties cur)))
                         fragments acc)
    = fold_left (fun found cur =>
                   match Obj.get k (own (properties cur)) with
                   | Some v => Some v
                   | None => found
                   end)
                fragments (Obj.get k acc).
Proof.
  induction 1 as [|cur rest Hcur _ IH]; intros acc; cbn [fold_left].
  - reflexivity.
  - rewrite IH, get_spread, (get_rev k _ Hcur). reflexivity.
Qed.

(** X2.  Key by key, the [properties] of the flattened property hold the
    value of the last fragment, in array order, whose own [properties]
    has the key, and the property's own value when no fragment has it: the
    value is replaced as a whole, the two sub-properties are not merged. *)
Theorem mergeAllOf_properties_lookup (p : SchemaProperty)
    (fragments : list SchemaProperty) (k : string) :
  allOf p = Some fragments ->
  Forall (fun cur => NoDup (keys (own (properties cur)))) fragments ->
  Obj.get k (own (properties (mergeAllOf p)))
  = fold_left (fun found cur =>
                 match Obj.get k (own (properties cur)) with
                 | Some v => Some v
                 | None => found
                 end)
              fragments (Obj.get k (own (properties p))).
Proof.
  intros Hall Hkeys. rewrite properties_mergeAllOf, Hall.
  apply get_fold_spread. exact Hkeys.
Qed.

Lemma mergeAllOf_properties_lookup_witness :
  Obj.get "a"
    (own (properties
            (mergeAllOf
               (allOfOnly [propertiesOnly [("a", typeOnly "string")];
                           propertiesOnly [("a", deprecatedOnly true)]]))))
  = Some (deprecatedOnly true).
Proof.
  rewrite (mergeAllOf_properties_lookup
             (allOfOnly [propertiesOnly [("a", typeOnly "string")];
                         propertiesOnly [("a", deprecatedOnly true)]])
             [propertiesOnly [("a", typeOnly "string")];
              propertiesOnly [("a", deprecatedOnly true)]] "a" eq_refl).
  - reflexivity.
  - repeat constructor; intros [].
Defined.

Lemma NoDup_fold_spread (fragments : list SchemaProperty) :
  forall acc : Properties,
    NoDup (keys acc) ->
    NoDup (keys (fold_left (fun a cur => Obj.spread a (own (properties cur)))
                           fragments acc)).
Proof.
  induction fragments as [|cur rest IH]; intros acc Hacc; cbn [fold_left].
  - exact Hacc.
  - apply IH. apply NoDup_spread. exact Hacc.
Qed.

Lemma keys_fold_spread_prefix (fragments : list SchemaProperty) :
  forall acc : Properties,
  exists added,
    keys (fold_left (fun a cur => Obj.spread a (own (properties cur)))
                    fragments acc)
    = (keys acc ++ added)%list.
Proof.
  induction fragments as [|cur rest IH]; intros acc; cbn [fold_left].
  - exists []. rewrite app_nil_r. reflexivity.
  - destruct (IH (Obj.spread acc (own (properties cur)))) as [added Hadded].
    destruct (keys_spread_prefix (own (properties cur)) acc) as [added' Hadded'].
    exists (added' ++ added)%list. rewrite Hadded, Hadded', app_assoc. reflexivity.
Qed.

Lemma keys_string_entries {V : Type} (o : @Obj.t V) :
  keys (Obj.string_entries o)
  = filter (fun k => match Obj.array_index k with Some _ => false | None => true end)
           (keys o).
Proof.
  unfold keys, Obj.string_entries. induction o as [|kv o IH]; [reflexivity|].
  cbn [filter map]. destruct (Obj.array_index (fst kv)); cbn [map]; rewrite IH;
    reflexivity.
Qed.

Lemma entries_without_index {V : Type} (o : @Obj.t V) :
  Forall (fun k => Obj.array_index k = None) (keys o) -> Obj.entries o = o.
Proof.
  unfold Obj.entries, Obj.string_entries, keys.
  induction o as [|kv o IH]; intros Hnone; [reflexivity|].
  cbn [map] in Hnone. inversion Hnone as [|? ? Hkv Ho]; subst.
  cbn [Obj.index_entries filter]. rewrite Hkv.
  specialize (IH Ho).
  destruct (Obj.index_entries o) as [|x l] eqn:Hindex.
  - cbn [map app] in IH |- *. rewrite IH. reflexivity.
  - exfalso. assert (Hin : In x (Obj.index_entries o)) by (rewrite Hindex; left; reflexivity).
    clear -Hin Ho. induction o as [|kv' o IHo]; [exact Hin|].
    cbn [map] in Ho. inversion Ho as [|? ? Hkv' Ho']; subst.
    cbn [Obj.index_entries] in Hin. rewrite Hkv' in Hin. exact (IHo Ho' Hin).
Qed.

(** X3.  Flattening keeps the keys of the [properties] object distinct.
    In the order in which JavaScript lists them, array indices first and
    then the other keys in insertion order, the property's own keys that
    are not array indices keep their order and stay ahead of the ones the
    fragments add: a fragment that overwrites a key does not move it.  When
    no key of the flattened object is an array index, the own keys are
    listed first as a whole. *)
Theorem mergeAllOf_properties_keys (p : SchemaProperty) :
  let own_ := own (properties p) in
  let merged := own (properties (mergeAllOf p)) in
  NoDup (keys (Obj.entries own_)) ->
  NoDup (keys (Obj.entries merged))
  /\ (exists added,
         keys (Obj.string_entries merged)
         = (keys (Obj.string_entries own_) ++ added)%list)
  /\ (Forall (fun k => Obj.array_index k = None) (keys (Obj.entries merged)) ->
      exists added,
        keys (Obj.entries merged) = (keys (Obj.entries own_) ++ added)%list).
Proof.
  cbv zeta. intros Hnodup.
  assert (Hraw : NoDup (keys (own (properties p)))).
  { refine (Permutation_NoDup _ Hnodup). unfold keys. apply Permutation_map.
    apply Permutation_entries. }
  rewrite properties_mergeAllOf.
  set (fragments := match allOf p with Some l => l | None => [] end).
  destruct (keys_fold_spread_prefix fragments (own (properties p)))
    as [added Hadded].
  split; [|split].
  - refine (Permutation_NoDup _ (NoDup_fold_spread fragments _ Hraw)).
    unfold keys. apply Permutation_map. symmetry. apply Permutation_entries.
  - rewrite !keys_string_entries, Hadded, filter_app. eexists. reflexivity.
  - intros Hnone.
    assert (Hmerged : Forall (fun k => Obj.array_index k = None)
                        (keys (fold_left (fun a cur => Obj.spread a (own (properties cur)))
                                         fragments (own (properties p))))).
    { refine (Permutation_Forall _ Hnone). unfold keys. apply Permutation_map.
      apply Permutation_entries. }
    rewrite (entries_without_index _ Hmerged).
    rewrite Hadded in Hmerged. apply Forall_app in Hmerged.
    rewrite (entries_without_index _ (proj1 Hmerged)).
    exists added. exact Hadded.
Qed.

Lemma mergeAllOf_properties_keys_witness :
  let p :=
    mkProperty None None None None None None
      (Some [("b", emptyProperty); ("a", emptyProperty)]) None None
      (Some [propertiesOnly [("a", typeOnly "string"); ("c", emptyProperty)]])
      None None None in
  NoDup (keys (Obj.entries (own (properties (mergeAllOf p)))))
  /\ exists added,
      keys (Obj.entries (own (properties (mergeAllOf p))))
      = (keys (Obj.entries (own (properties p))) ++ added)%list.
Proof.
  cbv zeta.
  pose proof (mergeAllOf_properties_keys
                (mkProperty None None None None None None
                   (Some [("b", emptyProperty); ("a", emptyProperty)]) None None
                   (Some [propertiesOnly [("a", typeOnly "string");
                                          ("c", emptyProperty)]])
                   None None None)) as Hkeys.
  cbv zeta in Hkeys.
  assert (Hown : NoDup (keys (Obj.entries [("b", emptyProperty); ("a", emptyProperty)]))).
  { change (NoDup ["b"; "a"]).
    constructor; [intros [Heq|[]]; discriminate|].
    constructor; [intros []|constructor]. }
  destruct (Hkeys Hown) as [Hnodup [_ Hprefix]].
  split; [exact Hnodup|]. apply Hprefix.
  change (Forall (fun k => Obj.array_index k = None) ["b"; "a"; "c"]).
  repeat constructor.
Defined.

(** ** The example splitter, on every input *)

(** X4.  For every input the code block is the trimmed text of the
    matched block without its fences: the re-indentation step that
    follows the trim never removes a character, whatever the indentation
    of the block; without a match the code block is empty and the whole
    input is the commentary. *)
Theorem parseContent_result (input : string) :
  Splitter.parseContent (Some input)
  = Ok {| Splitter.briefing :=
            Js.trim (match Splitter.match_codeRegex input with
                     | Some (before, _, after) => before ++ after
                     | None => input
                     end);
          Splitter.codeBlock :=
            match Splitter.match_codeRegex input with
            | Some (_, m, _) => Js.trim (Splitter.strip_fences 0 m)
            | None => EmptyString
            end |}.
Proof.
  destruct (Splitter.match_codeRegex input) as [[[before m] after]|] eqn:Hmatch.
  - exact (parseContent_keeps_indentation input before m after Hmatch).
  - unfold Splitter.parseContent. rewrite Hmatch. reflexivity.
Qed.

Lemma includes_false (p s : string) :
  Js.includes p s = false ->
  Js.startsWith p s = false
  /\ match s with
     | EmptyString => True
     | String _ s' => Js.includes p s' = false
     end.
Proof.
  destruct s as [|c s]; cbn [Js.includes];
    destruct (Js.startsWith p _); intros H; try discriminate; split; auto.
Qed.

Lemma match_codeRegex_without_fence (input : string) :
  Js.includes Splitter.FENCE_YAML input = false ->
  Splitter.match_codeRegex input = None.
Proof.
  induction input as [|c s IH]; intros Hnone;
    destruct (includes_false _ _ Hnone) as [Hstart Hrest].
  - reflexivity.
  - cbn [Splitter.match_codeRegex]. rewrite Hstart, (IH Hrest). reflexivity.
Qed.

(** X5.  An example that does not contain the opening fence has no code:
    the code block is empty and the commentary is the whole example,
    trimmed. *)
Theorem parseContent_without_fence (input : string) :
  Js.includes Splitter.FENCE_YAML input = false ->
  Splitter.parseContent (Some input)
  = Ok {| Splitter.briefing := Js.trim input;
          Splitter.codeBlock := EmptyString |}.
Proof.
  intros Hnone. unfold Splitter.parseContent.
  rewrite (match_codeRegex_without_fence input Hnone). reflexivity.
Qed.

Lemma parseContent_without_fence_witness :
  Splitter.parseContent (Some "  Set the region first. ")
  = Ok {| Splitter.briefing := "Set the region first.";
          Splitter.codeBlock := EmptyString |}.
Proof.
  apply (parseContent_without_fence "  Set the region first. "). reflexivity.
Defined.

Lemma string_app_assoc (a b c : string) : (a ++ b) ++ c = a ++ (b ++ c).
Proof. induction a as [|x a IH]; [reflexivity|]. cbn [append]. rewrite IH. reflexivity. Qed.

Lemma startsWith_split (p s : string) :
  Js.startsWith p s = true -> s = p ++ Js.drop (String.length p) s.
Proof.
  revert s. induction p as [|a p IH]; intros s; [reflexivity|].
  destruct s as [|b s]; cbn [Js.startsWith]; [discriminate|].
  destruct (Ascii.eqb_spec a b) as [->|_]; [|discriminate].
  intros Hstart. cbn [String.length Js.drop append]. rewrite <- (IH s Hstart).
  reflexivity.
Qed.

Lemma startsWith_prefix (p a b : string) :
  Js.startsWith p a = true -> Js.startsWith p (a ++ b) = true.
Proof.
  revert a. induction p as [|c p IH]; intros a; [reflexivity|].
  destruct a as [|d a]; cbn [Js.startsWith append]; [discriminate|].
  destruct (Ascii.eqb c d); [apply IH|discriminate].
Qed.

Lemma find_fence_spec (s inner rest : string) :
  Splitter.find_fence s = Some (inner, rest) ->
  s = inner ++ Splitter.FENCE ++ rest
  /\ Js.includes Splitter.FENCE inner = false
  /\ forall pre post,
      inner = pre ++ post -> post <> EmptyString ->
      Js.startsWith Splitter.FENCE (post ++ Splitter.FENCE ++ rest) = false.
Proof.
  revert inner rest. induction s as [|c s IH]; intros inner rest.
  - cbn. discriminate.
  - cbn [Splitter.find_fence].
    destruct (Js.startsWith Splitter.FENCE (String c s)) eqn:Hstart.
    + intros Heq. injection Heq as <- <-.
      split; [exact (startsWith_split _ _ Hstart)|]. split; [reflexivity|].
      intros pre post Hsplit Hpost. exfalso. apply Hpost.
      destruct pre; [symmetry; exact Hsplit|discriminate].
    + destruct (Splitter.find_fence s) as [[inner' rest']|]; [|discriminate].
      intros Heq. injection Heq as <- <-.
      destruct (IH inner' rest' eq_refl) as [-> [Hinner Hnearest]].
      split; [reflexivity|]. split.
      * cbn [Js.includes]. rewrite Hinner.
        destruct (Js.startsWith Splitter.FENCE (String c inner')) eqn:Hhere;
          [|reflexivity].
        pose proof (startsWith_prefix _ (String c inner') (Splitter.FENCE ++ rest') Hhere)
          as Hcontra.
        cbn [append] in Hcontra, Hstart. congruence.
      * intros pre post Hsplit Hpost. destruct pre as [|d pre].
        -- cbn [append] in Hsplit. subst post. exact Hstart.
        -- cbn [append] in Hsplit. injection Hsplit as _ Hsplit.
           exact (Hnearest pre post Hsplit Hpost).
Qed.

Lemma find_fence_complete (x y : string) :
  Splitter.find_fence (x ++ Splitter.FENCE ++ y) <> None.
Proof.
  induction x as [|c x IH].
  - cbn. discriminate.
  - cbn [append Splitter.find_fence].
    destruct (Js.startsWith Splitter.FENCE (String c (x ++ Splitter.FENCE ++ y)));
      [discriminate|].
    destruct (Splitter.find_fence (x ++ Splitter.FENCE ++ y)) as [[inner rest]|];
      [discriminate|exact IH].
Qed.

Lemma string_length_app (a b : string) :
  String.length (a ++ b) = String.length a + String.length b.
Proof. induction a as [|c a IH]; [reflexivity|]. cbn [append String.length]. rewrite IH. reflexivity. Qed.

Lemma drop_app (n : nat) :
  forall u v, n <= String.length u -> Js.drop n (u ++ v) = Js.drop n u ++ v.
Proof.
  induction n as [|n IH]; intros u v Hn; [reflexivity|].
  destruct u as [|c u]; cbn [String.length] in Hn; [lia|].
  cbn [append Js.drop]. apply IH. lia.
Qed.

(** A closing fence further on is found from every earlier position. *)
Lemma find_fence_after_opening (c : ascii) (before inner after : string) :
  Splitter.find_fence
    (Js.drop 7 (String c (before ++ (Splitter.FENCE_YAML ++ inner ++ Splitter.FENCE)
                                 ++ after)))
  <> None.
Proof.
  change (Splitter.find_fence
            (Js.drop 6 (before ++ (Splitter.FENCE_YAML ++ inner ++ Splitter.FENCE)
                               ++ after)) <> None).
  replace (before ++ (Splitter.FENCE_YAML ++ inner ++ Splitter.FENCE) ++ after)
    with ((before ++ Splitter.FENCE_YAML ++ inner) ++ Splitter.FENCE ++ after)
    by (rewrite !string_app_assoc; reflexivity).
  rewrite drop_app.
  - apply find_fence_complete.
  - rewrite !string_length_app. cbn [String.length Splitter.FENCE_YAML]. lia.
Qed.

(** X6.  When a block is found, the input is the text before it, the
    block and the text after it, so the commentary is the input with
    exactly the block cut out.  The block is the first one of the input:
    no opening yaml fence starts before it.  It opens with the yaml fence
    and closes at the nearest closing fence: no fence starts at an earlier
    position of the text that follows the opening fence. *)
Theorem match_codeRegex_splits (input before m after : string) :
  Splitter.match_codeRegex input = Some (before, m, after) ->
  input = before ++ m ++ after
  /\ (forall pre post,
         before = pre ++ post -> post <> EmptyString ->
         Js.startsWith Splitter.FENCE_YAML (post ++ m ++ after) = false)
  /\ exists inner,
      m = Splitter.FENCE_YAML ++ inner ++ Splitter.FENCE
      /\ Js.includes Splitter.FENCE inner = false
      /\ forall pre post,
          inner = pre ++ post -> post <> EmptyString ->
          Js.startsWith Splitter.FENCE (post ++ Splitter.FENCE ++ after) = false.
Proof.
  revert before m after. induction input as [|c s IH]; intros before m after.
  - cbn. discriminate.
  - cbn [Splitter.match_codeRegex].
    set (here := if Js.startsWith Splitter.FENCE_YAML (String c s)
                 then match Splitter.find_fence (Js.drop 7 (String c s)) with
                      | Some (inner, rest) =>
                          Some (EmptyString,
                                Splitter.FENCE_YAML ++ inner ++ Splitter.FENCE, rest)
                      | None => None
                      end
                 else None).
    destruct here as [[[b0 m0] a0]|] eqn:Hhere.
    + intros Heq. injection Heq as <- <- <-. subst here.
      destruct (Js.startsWith Splitter.FENCE_YAML (String c s)) eqn:Hstart;
        [|discriminate].
      destruct (Splitter.find_fence (Js.drop 7 (String c s)))
        as [[inner rest]|] eqn:Hfind; [|discriminate].
      injection Hhere as <- <- <-.
      destruct (find_fence_spec _ _ _ Hfind) as [Hdrop [Hinner Hnearest]].
      split; [|split].
      * rewrite (startsWith_split _ _ Hstart) at 1.
        change (String.length Splitter.FENCE_YAML) with 7. rewrite Hdrop.
        unfold Splitter.FENCE_YAML. cbn [append].
        rewrite string_app_assoc. reflexivity.
      * intros pre post Hsplit Hpost. exfalso. apply Hpost.
        destruct pre; [symmetry; exact Hsplit|discriminate].
      * exists inner. split; [reflexivity|]. split; [exact Hinner|exact Hnearest].
    + destruct (Splitter.match_codeRegex s) as [[[b1 m1] a1]|]; [|discriminate].
      intros Heq. injection Heq as <- <- <-.
      destruct (IH b1 m1 a1 eq_refl) as [-> [Hfirst Hblock]].
      split; [reflexivity|]. split; [|exact Hblock].
      intros pre post Hsplit Hpost. destruct pre as [|d pre].
      * cbn [append] in Hsplit. subst post. cbn [append].
        subst here.
        destruct (Js.startsWith Splitter.FENCE_YAML
                    (String c (b1 ++ m1 ++ a1))) eqn:Hstart; [|reflexivity].
        exfalso. destruct Hblock as [inner [-> _]].
        pose proof (find_fence_after_opening c b1 inner a1) as Hfound.
        destruct (Splitter.find_fence
                    (Js.drop 7
                       (String c
                          (b1 ++ (Splitter.FENCE_YAML ++ inner ++ Splitter.FENCE) ++ a1))))
          as [[i r]|]; [discriminate|]. apply Hfound. reflexivity.
      * cbn [append] in Hsplit. injection Hsplit as _ Hsplit.
        exact (Hfirst pre post Hsplit Hpost).
Qed.

Lemma match_codeRegex_splits_witness :
  "See ```yamlx```` below" = "See " ++ "```yamlx```" ++ "` below"
  /\ Js.startsWith Splitter.FENCE_YAML ("ee " ++ "```yamlx```" ++ "` below") = false.
Proof.
  destruct (match_codeRegex_splits "See ```yamlx```` below"
              "See " "```yamlx```" "` below" eq_refl) as [Hsplit [Hfirst _]].
  split; [exact Hsplit|].
  apply (Hfirst "S" "ee "); [reflexivity|discriminate].
Defined.

Lemma trimEnd_idempotent (s : string) : Js.trimEnd (Js.trimEnd s) = Js.trimEnd s.
Proof.
  induction s as [|c s IH]; [reflexivity|].
  cbn [Js.trimEnd]. destruct (Js.trimEnd s) as [|a t] eqn:Hend.
  - destruct (Js.is_ws c) eqn:Hc; [reflexivity|].
    cbn [Js.trimEnd]. rewrite Hc. reflexivity.
  - change (Js.trimEnd (String c (String a t)))
      with (match Js.trimEnd (String a t) with
            | EmptyString =>
                if Js.is_ws c then EmptyString else String c EmptyString
            | r => String c r
            end).
    rewrite IH. reflexivity.
Qed.

Lemma trim_idempotent (s : string) : Js.trim (Js.trim s) = Js.trim s.
Proof.
  destruct (Js.trim s) as [|c r] eqn:Htrim; [reflexivity|].
  pose proof (trim_head s c r Htrim) as Hc.
  unfold Js.trim at 1. cbn [Js.trimStart]. rewrite Hc, <- Htrim.
  unfold Js.trim. apply trimEnd_idempotent.
Qed.

(** X7.  The commentary and the code block never start or end with
    white space: trimming them again changes nothing. *)
Theorem parseContent_is_trimmed (input : string) :
  exists parsed,
    Splitter.parseContent (Some input) = Ok parsed
    /\ Js.trim (Splitter.briefing parsed) = Splitter.briefing parsed
    /\ Js.trim (Splitter.codeBlock parsed) = Splitter.codeBlock parsed.
Proof.
  destruct (Splitter.match_codeRegex input) as [[[before m] after]|] eqn:Hmatch.
  - eexists. split; [exact (parseContent_keeps_indentation _ _ _ _ Hmatch)|].
    cbn [Splitter.briefing Splitter.codeBlock].
    split; apply trim_idempotent.
  - eexists. split; [unfold Splitter.parseContent; rewrite Hmatch; reflexivity|].
    cbn [Splitter.briefing Splitter.codeBlock].
    split; [apply trim_idempotent|reflexivity].
Qed.

(** ** The tabs of [MarkdownCodeSeparator] *)

Lemma decimal_value_app (s1 s2 : string) :
  forall acc,
    Obj.decimal_value (s1 ++ s2) acc = Obj.decimal_value s2 (Obj.decimal_value s1 acc).
Proof.
  induction s1 as [|c s1 IH]; intros acc; [reflexivity|].
  cbn [append Obj.decimal_value]. apply IH.
Qed.

Lemma digits_spec (fuel : nat) :
  forall n acc,
    n < fuel ->
    exists d,
      Js.digits fuel n acc = d ++ acc
      /\ forall a, Obj.decimal_value d a
                   = (a * 10 ^ N.of_nat (String.length d) + N.of_nat n)%N.
Proof.
  induction fuel as [|fuel IH]; intros n acc Hn; [lia|].
  cbn [Js.digits].
  assert (Hdigit : forall a,
             Obj.decimal_value (String (ascii_of_nat (48 + n mod 10)) EmptyString) a
             = (a * 10 + N.of_nat (n mod 10))%N).
  { intros a. cbn [Obj.decimal_value].
    rewrite nat_ascii_embedding
      by (pose proof (Nat.mod_upper_bound n 10); lia).
    f_equal. f_equal. lia. }
  destruct (Nat.ltb_spec n 10) as [Hsmall|Hbig].
  - exists (String (ascii_of_nat (48 + n mod 10)) EmptyString).
    split; [reflexivity|]. intros a. rewrite Hdigit.
    rewrite (Nat.mod_small n 10 Hsmall). cbn [String.length]. lia.
  - assert (Hdiv : n / 10 < fuel).
    { pose proof (Nat.div_lt n 10). lia. }
    destruct (IH (n / 10) (String (ascii_of_nat (48 + n mod 10)) acc) Hdiv)
      as [d [Heq Hval]].
    exists (d ++ String (ascii_of_nat (48 + n mod 10)) EmptyString).
    split.
    + rewrite Heq, string_app_assoc. reflexivity.
    + intros a. rewrite decimal_value_app, Hdigit, Hval.
      assert (Hlen : String.length (d ++ String (ascii_of_nat (48 + n mod 10)) EmptyString)
                     = S (String.length d)).
      { clear. induction d as [|x d IHd]; [reflexivity|].
        cbn [append String.length]. rewrite IHd. reflexivity. }
      rewrite Hlen, Nat2N.inj_succ, N.pow_succ_r'.
      pose proof (Nat.div_mod_eq n 10) as Hdm.
      assert (Hn10 : N.of_nat n = (10 * N.of_nat (n / 10) + N.of_nat (n mod 10))%N)
        by lia.
      rewrite Hn10. ring.
Qed.

(** The decimal form of a number reads back as the number. *)
Lemma decimal_value_String_of_nat (n : nat) :
  Obj.decimal_value (Js.String_of_nat n) 0 = N.of_nat n.
Proof.
  unfold Js.String_of_nat.
  destruct (digits_spec (S n) n EmptyString (Nat.lt_succ_diag_r n)) as [d [-> Hval]].
  rewrite decimal_value_app, Hval. cbn [Obj.decimal_value]. lia.
Qed.

Lemma String_of_nat_injective (n m : nat) :
  Js.String_of_nat n = Js.String_of_nat m -> n = m.
Proof.
  intros Heq. apply Nat2N.inj.
  rewrite <- (decimal_value_String_of_nat n), <- (decimal_value_String_of_nat m), Heq.
  reflexivity.
Qed.

Lemma nth_error_mapi_from {A B : Type} (f : A -> nat -> B) (l : list A) :
  forall index i,
    nth_error (mapi_from index f l) i
    = option_map (fun x => f x (index + i)) (nth_error l i).
Proof.
  induction l as [|x l IH]; intros index i.
  - destruct i; reflexivity.
  - destruct i as [|i]; cbn [mapi_from nth_error option_map].
    + rewrite Nat.add_0_r. reflexivity.
    + rewrite IH. replace (S index + i) with (index + S i) by lia. reflexivity.
Qed.

Lemma length_mapi_from {A B : Type} (f : A -> nat -> B) (l : list A) :
  forall index, length (mapi_from index f l) = length l.
Proof.
  induction l as [|x l IH]; intros index; [reflexivity|].
  cbn [mapi_from length]. rewrite IH. reflexivity.
Qed.

Lemma mapM_id_nth {B : Type} (l : list (res B)) :
  forall items,
    mapM (fun item => item) l = Ok items ->
    forall i, nth_error l i = option_map Ok (nth_error items i).
Proof.
  induction l as [|x l IH]; intros items; cbn [mapM].
  - intros Heq. injection Heq as <-. intros [|i]; reflexivity.
  - destruct x as [b|e]; cbn [bind]; [|discriminate].
    destruct (mapM (fun item => item) l) as [bs|e]; cbn [bind]; [|discriminate].
    intros Heq. injection Heq as <-. intros [|i]; [reflexivity|].
    cbn [nth_error]. apply (IH bs eq_refl).
Qed.

(** X8.  Two or more examples are rendered as one [Tabs] element whose
    default value is that of the first tab, with one tab per example and
    in the order of the examples: tab [i] (from 0) is labelled
    ["Example i+1"], has the value ["example-i"] and holds the commentary
    and the code of example [i]. *)
Theorem MarkdownCodeSeparator_tabs (examples : list string) (inputKey : string) :
  1 < length examples ->
  exists labels items,
    MarkdownCodeSeparator (Some examples) inputKey
    = Ok (Elem "Tabs" [("defaultValue", PStr "example-0");
                       ("values", PTabValues labels)] items)
    /\ length labels = length examples
    /\ length items = length examples
    /\ nth_error labels 0 = Some ("Example 1", "example-0")
    /\ forall i example,
        nth_error examples i = Some example ->
        nth_error labels i
        = Some ("Example " ++ Js.String_of_nat (i + 1),
                "example-" ++ Js.String_of_nat i)
        /\ exists parsed,
            Splitter.parseContent (Some example) = Ok parsed
            /\ nth_error items i
               = Some (Elem "TabItem"
                         [("key", PStr (Js.String_of_nat i));
                          ("value", PStr ("example-" ++ Js.String_of_nat i))]
                         [Elem "div" [] (exampleBody parsed)]).
Proof.
  intros Hmany. unfold MarkdownCodeSeparator.
  apply Nat.ltb_lt in Hmany. rewrite Hmany. apply Nat.ltb_lt in Hmany.
  destruct (mapM_tabs examples 0) as [items [Hitems Hlen]].
  rewrite Hitems. cbn [bind].
  eexists. exists items. split; [reflexivity|].
  split; [apply length_mapi_from|]. split; [exact Hlen|].
  split.
  - destruct examples as [|first rest]; [cbn in Hmany; lia|]. reflexivity.
  - intros i example Hexample. split.
    + rewrite nth_error_mapi_from, Hexample. reflexivity.
    + pose proof (mapM_id_nth _ items Hitems i) as Hnth.
      rewrite nth_error_mapi_from, Hexample in Hnth. cbn [option_map plus] in Hnth.
      destruct (parseContent_string example) as [parsed Hparsed].
      exists parsed. split; [exact Hparsed|].
      rewrite Hparsed in Hnth. cbn [bind] in Hnth.
      destruct (nth_error items i) as [item|]; [|discriminate].
      cbn [option_map] in Hnth. injection Hnth as <-. reflexivity.
Qed.

Lemma MarkdownCodeSeparator_tabs_witness :
  exists labels items,
    MarkdownCodeSeparator (Some ["first"; "second"]) "examples"
    = Ok (Elem "Tabs" [("defaultValue", PStr "example-0");
                       ("values", PTabValues labels)] items)
    /\ length labels = 2.
Proof.
  destruct (MarkdownCodeSeparator_tabs ["first"; "second"] "examples")
    as [labels [items [Hrender [Hlabels _]]]].
  - cbn. lia.
  - exists labels, items. split; [exact Hrender|exact Hlabels].
Defined.

Lemma In_tab_values (l : list string) :
  forall index v,
    In v (map snd (mapi_from index
                     (fun (_ : string) i =>
                        ("Example " ++ Js.String_of_nat (i + 1),
                         "example-" ++ Js.String_of_nat i)) l)) ->
    exists i, index <= i /\ v = "example-" ++ Js.String_of_nat i.
Proof.
  induction l as [|x l IH]; intros index v; cbn [mapi_from map snd In].
  - intros [].
  - intros [<-|Hin].
    + exists index. split; [lia|reflexivity].
    + destruct (IH (S index) v Hin) as [i [Hi ->]]. exists i. split; [lia|reflexivity].
Qed.

Lemma NoDup_tab_values (l : list string) :
  forall index,
    NoDup (map snd (mapi_from index
                      (fun (_ : string) i =>
                         ("Example " ++ Js.String_of_nat (i + 1),
                          "example-" ++ Js.String_of_nat i)) l)).
Proof.
  induction l as [|x l IH]; intros index; cbn [mapi_from map snd].
  - constructor.
  - constructor; [|apply IH].
    intros Hin. destruct (In_tab_values l (S index) _ Hin) as [i [Hi Heq]].
    cbn [append] in Heq. injection Heq as Heq.
    apply String_of_nat_injective in Heq. lia.
Qed.

(** X9.  The values of the tabs are pairwise distinct, however many
    examples there are: no two tabs share a selection value. *)
Theorem MarkdownCodeSeparator_tab_values_distinct (examples : list string)
    (inputKey : string) (node : Node) :
  1 < length examples ->
  MarkdownCodeSeparator (Some examples) inputKey = Ok node ->
  length (tabValues node) = length examples
  /\ NoDup (map snd (tabValues node)).
Proof.
  intros Hmany. unfold MarkdownCodeSeparator.
  apply Nat.ltb_lt in Hmany. rewrite Hmany.
  destruct (mapM_tabs examples 0) as [items [Hitems _]].
  rewrite Hitems. cbn [bind]. intros Heq. injection Heq as <-.
  cbn [tabValues propOf String.eqb Ascii.eqb Bool.eqb].
  split; [apply length_mapi_from|apply NoDup_tab_values].
Qed.

Lemma MarkdownCodeSeparator_tab_values_distinct_witness :
  exists node,
    MarkdownCodeSeparator (Some ["first"; "second"; "third"]) "examples" = Ok node
    /\ NoDup (map snd (tabValues node)).
Proof.
  eexists. split; [reflexivity|].
  apply (MarkdownCodeSeparator_tab_values_distinct
           ["first"; "second"; "third"] "examples"); [cbn; lia|reflexivity].
Defined.

(** ** The loader, first variant *)

(** X10.  In the first variant a response that is not [ok] always ends in
    the error view, never in [Ready], whatever the body holds, and the
    message shown names the status code and the status text. *)
Theorem fetchSchema_rejects_non_success (Raw : Type)
    (resolve : Raw -> res Schema.t) (r : Response Raw) :
  ok r = false ->
  let message :=
    "Failed to fetch schema: " ++ Js.String_of_nat (status r) ++ " "
      ++ statusText r in
  view (useSchema Raw resolve (Ok r)) = ErrorView message
  /\ Js.includes (Js.String_of_nat (status r)) message = true
  /\ NebariConfig (useSchema Raw resolve (Ok r))
     = Ok (Elem "p" [] [Text "Error loading schema: "; Text message]).
Proof.
  intros Hok. cbv zeta.
  destruct (fetchSchema_non_success Raw resolve r Hok) as [Hview Hincludes].
  split; [exact Hview|]. split; [exact Hincludes|].
  unfold NebariConfig. rewrite Hview. reflexivity.
Qed.

Lemma fetchSchema_rejects_non_success_witness :
  view (useSchema Schema.t Ok
          (Ok {| ok := false; status := 503; statusText := "Service Unavailable";
                 json := Ok defaultSchema |}))
  = ErrorView "Failed to fetch schema: 503 Service Unavailable".
Proof.
  apply (fetchSchema_rejects_non_success Schema.t Ok
           {| ok := false; status := 503; statusText := "Service Unavailable";
              json := Ok defaultSchema |}).
  reflexivity.
Defined.

(** X11.  The first variant ends every fetch with [loading] false.  A
    failure at any of the three awaited steps (the fetch, the parse of the
    body, the resolution of the references) leaves the default schema in
    place and stores the message of the error; it is shown as an error
    when that message is not empty, and as the default schema when it is
    empty, because the page tests the message for truthiness.  When the
    three steps succeed the page is [Ready] with the resolved schema and no
    error is stored.  A response that is not [ok] also ends with [loading]
    false, the default schema and an error stored. *)
Theorem useSchema_outcomes (Raw : Type) (resolve : Raw -> res Schema.t) :
  let failed (e : JsError) (st : HookState) :=
    loading st = false /\ schema st = defaultSchema
    /\ error st = Some (message_of e)
    /\ view st = if Splitter.truthy_string (message_of e)
                 then ErrorView (message_of e)
                 else Ready defaultSchema in
  (forall e, failed e (useSchema Raw resolve (Throw e)))
  /\ (forall r e, ok r = true -> json r = Throw e ->
                  failed e (useSchema Raw resolve (Ok r)))
  /\ (forall r d e, ok r = true -> json r = Ok d -> resolve d = Throw e ->
                    failed e (useSchema Raw resolve (Ok r)))
  /\ (forall r d s, ok r = true -> json r = Ok d -> resolve d = Ok s ->
                    let st := useSchema Raw resolve (Ok r) in
                    loading st = false /\ error st = None /\ view st = Ready s)
  /\ (forall r, ok r = false ->
                let st := useSchema Raw resolve (Ok r) in
                loading st = false /\ schema st = defaultSchema
                /\ error st <> None).
Proof.
  cbv zeta. unfold useSchema, fetchSchema, try_catch_finally.
  split; [|split; [|split; [|split]]]; cycle 4.
  { intros r Hok. cbn [bind]. rewrite Hok. cbn [negb bind].
    repeat split. discriminate. }
  - intros e. cbn [bind]. unfold view. cbn.
    destruct (Splitter.truthy_string (message_of e)); repeat split.
  - intros r e Hok Hjson. cbn [bind]. rewrite Hok. cbn [negb bind].
    rewrite Hjson. cbn [bind]. unfold view. cbn.
    destruct (Splitter.truthy_string (message_of e)); repeat split.
  - intros r d e Hok Hjson Hresolve. cbn [bind]. rewrite Hok. cbn [negb bind].
    rewrite Hjson. cbn [bind]. rewrite Hresolve. unfold view. cbn.
    destruct (Splitter.truthy_string (message_of e)); repeat split.
  - intros r d s Hok Hjson Hresolve. cbn [bind]. rewrite Hok. cbn [negb bind].
    rewrite Hjson. cbn [bind]. rewrite Hresolve. repeat split.
Qed.

Lemma useSchema_outcomes_witness :
  view (useSchema Schema.t Ok
          (Ok {| ok := true; status := 200; statusText := "OK";
                 json := Throw (Error EmptyString) |}))
  = Ready defaultSchema
  /\ view (useSchema Schema.t Ok
             (Ok {| ok := true; status := 200; statusText := "OK";
                    json := Ok Variant2.defaultSchema |}))
     = Ready Variant2.defaultSchema.
Proof.
  split.
  - apply (proj1 (proj2 (useSchema_outcomes Schema.t Ok))
             {| ok := true; status := 200; statusText := "OK";
                json := Throw (Error EmptyString) |} (Error EmptyString));
      reflexivity.
  - apply (proj1 (proj2 (proj2 (proj2 (useSchema_outcomes Schema.t Ok))))
             {| ok := true; status := 200; statusText := "OK";
                json := Ok Variant2.defaultSchema |}
             Variant2.defaultSchema Variant2.defaultSchema);
      reflexivity.
Defined.

(** ** The details table and the content of a property *)

(** X12.  The test for the table covers every row: whenever one of the
    five rows would be rendered the table is emitted, so no row is ever
    lost; and a table is emitted without any row only for a property that
    is deprecated. *)
Theorem table_gate_covers_rows (p : SchemaProperty) (content : Node) :
  PropertyContent p = Ok content ->
  (tableRows p <> [] -> tablesOf content = [detailsTable p])
  /\ (tablesOf content <> [] -> tableRows p = [] -> deprecated p = Some true).
Proof.
  intros Hrender. rewrite (PropertyContent_tables p content Hrender).
  pose proof (tableRows_nil p) as Hnil. unfold hasTableData, truthy_str in *.
  destruct (truthy_type (type p)), (default p), (enum p), (optionsAre p),
    (pattern p) as [pat|];
    try destruct (Splitter.truthy_string pat);
    cbn [orb is_defined when];
    try (split; [reflexivity|intros _ Hrows; apply Hnil in Hrows;
                             intuition discriminate]);
    (destruct (deprecated p) as [[|]|]; cbn [truthy_bool when];
     split; try reflexivity; try (intros Hrows; exfalso; apply Hrows, Hnil; auto);
     try (intros Hno; exfalso; apply Hno; reflexivity); auto).
Qed.

Lemma table_gate_covers_rows_witness :
  exists content,
    PropertyContent (typeOnly "string") = Ok content
    /\ tablesOf content = [detailsTable (typeOnly "string")].
Proof.
  eexists. split; [reflexivity|].
  apply (table_gate_covers_rows (typeOnly "string")); [reflexivity|discriminate].
Defined.

(** X13.  [PropertyContent] throws exactly for a property whose
    [examples] is the empty array; for every other property, with or
    without examples, it returns its block. *)
Theorem PropertyContent_throws_iff (p : SchemaProperty) :
  (exists e, PropertyContent p = Throw e) <-> examples p = Some [].
Proof.
  unfold PropertyContent. split.
  - intros [e Hthrow]. destruct (examples p) as [[|example rest]|] eqn:Hexamples.
    + reflexivity.
    + exfalso.
      destruct (MarkdownCodeSeparator_total_on_nonempty (example :: rest) "examples")
        as [node Hnode]; [discriminate|].
      rewrite Hnode in Hthrow. cbn [bind] in Hthrow. discriminate.
    + cbn [bind] in Hthrow. discriminate.
  - intros ->. eexists. reflexivity.
Qed.

Lemma PropertyContent_throws_iff_witness :
  examples (examplesOnly []) = Some []
  /\ exists e, PropertyContent (examplesOnly []) = Throw e.
Proof.
  split; [reflexivity|].
  apply (proj2 (PropertyContent_throws_iff (examplesOnly []))). reflexivity.
Defined.

(** ** [PropertiesList]: when it returns, and what a section holds *)

Lemma noEmptyExamples_eq (p : SchemaProperty) :
  noEmptyExamples p =
  (match examples p with
   | Some [] => false
   | _ => true
   end
   && noEmptyExamplesIn (own (properties p))
   && match allOf p with
      | Some fragments => forallb noEmptyExamples fragments
      | None => true
      end)%bool.
Proof.
  destruct p as [? ? ? ? ? ? props ? ? ? ? ? ?]; destruct props; reflexivity.
Qed.

Lemma In_set {V : Type} (k : string) (v : V) (o : @Obj.t V) (x : string * V) :
  In x (Obj.set k v o) -> x = (k, v) \/ In x o.
Proof.
  induction o as [|[k' v'] o IH]; cbn [Obj.set].
  - intros [<-|[]]. left; reflexivity.
  - destruct (String.eqb k k').
    + intros [<-|Hin]; [left; reflexivity|right; right; exact Hin].
    + intros [<-|Hin]; [right; left; reflexivity|].
      destruct (IH Hin) as [->|Hin']; [left; reflexivity|right; right; exact Hin'].
Qed.

Lemma In_spread {V : Type} (b : @Obj.t V) :
  forall a x, In x (Obj.spread a b) -> In x a \/ In x b.
Proof.
  unfold Obj.spread. induction b as [|[k v] b IH]; intros a x; cbn [fold_left fst snd].
  - intros Hin. left; exact Hin.
  - intros Hin. destruct (IH _ _ Hin) as [Hset|Hb]; [|right; right; exact Hb].
    destruct (In_set _ _ _ _ Hset) as [->|Ha]; [right; left; reflexivity|left; exact Ha].
Qed.

Lemma noEmptyExamplesIn_spread (a b : Properties) :
  noEmptyExamplesIn a = true -> noEmptyExamplesIn b = true ->
  noEmptyExamplesIn (Obj.spread a b) = true.
Proof.
  unfold noEmptyExamplesIn. rewrite !forallb_forall. intros Ha Hb x Hin.
  destruct (In_spread b a x Hin) as [H|H]; [exact (Ha x H)|exact (Hb x H)].
Qed.

Lemma noEmptyExamplesIn_merged (value : SchemaProperty) :
  noEmptyExamples value = true ->
  noEmptyExamplesIn (own (properties (mergeAllOf value))) = true.
Proof.
  rewrite noEmptyExamples_eq, properties_mergeAllOf.
  intros Hvalue. apply andb_prop in Hvalue. destruct Hvalue as [Hvalue Hfragments].
  apply andb_prop in Hvalue. destruct Hvalue as [_ Hown].
  destruct (allOf value) as [fragments|]; [|exact Hown].
  revert Hown. generalize (own (properties value)).
  induction fragments as [|cur rest IH]; intros acc Hacc; cbn [fold_left];
    [exact Hacc|].
  cbn [forallb] in Hfragments. apply andb_prop in Hfragments.
  destruct Hfragments as [Hcur Hrest]. apply IH; [exact Hrest|].
  apply noEmptyExamplesIn_spread; [exact Hacc|].
  rewrite noEmptyExamples_eq in Hcur. apply andb_prop in Hcur.
  destruct Hcur as [Hcur _]. apply andb_prop in Hcur. exact (proj2 Hcur).
Qed.

Lemma mapM_ok {A B : Type} (f : A -> res B) (l : list A) :
  (forall x, In x l -> exists y, f x = Ok y) -> exists ys, mapM f l = Ok ys.
Proof.
  induction l as [|a l IH]; intros Hall; cbn [mapM].
  - exists []. reflexivity.
  - destruct (Hall a (or_introl eq_refl)) as [b ->]. cbn [bind].
    destruct IH as [bs ->]; [intros x Hx; apply Hall; right; exact Hx|].
    cbn [bind]. eexists. reflexivity.
Qed.

Lemma mapM_throw {A B : Type} (f : A -> res B) (l : list A) (x : A) (e : JsError) :
  In x l -> f x = Throw e -> exists e', mapM f l = Throw e'.
Proof.
  induction l as [|a l IH]; intros Hin Hthrow; [contradiction|].
  cbn [mapM]. destruct Hin as [->|Hin].
  - rewrite Hthrow. eexists. reflexivity.
  - destruct (f a) as [b|e0]; cbn [bind]; [|eexists; reflexivity].
    destruct (IH Hin Hthrow) as [e' ->]. cbn [bind]. eexists. reflexivity.
Qed.

Lemma PropertyContent_ok (p : SchemaProperty) :
  examples p <> Some [] -> exists content, PropertyContent p = Ok content.
Proof.
  intros Hexamples. unfold PropertyContent.
  destruct (examples p) as [[|example rest]|].
  - congruence.
  - destruct (MarkdownCodeSeparator_total_on_nonempty (example :: rest) "examples")
      as [node ->]; [discriminate|].
    cbn [bind]. eexists. reflexivity.
  - cbn [bind]. eexists. reflexivity.
Qed.

(** X14.  [PropertiesList] returns a tree for every [properties] object
    in which no property, at any depth of [properties] and [allOf], has an
    empty [examples] array: the recursion through [mergeAllOf] always
    ends, and nothing else in the renderer throws. *)
Theorem PropertiesList_returns (props : Properties) (sub_heading : bool) :
  noEmptyExamplesIn props = true ->
  exists node, PropertiesList props sub_heading = Ok node.
Proof.
  remember (properties_size props) as n eqn:Hn.
  revert props sub_heading Hn.
  induction n as [n IH] using lt_wf_ind. intros props sub_heading -> Hsafe.
  rewrite PropertiesList_unfold. unfold PropertiesList_body.
  match goal with
  | |- exists node, bind (mapM ?F _) _ = _ => destruct (mapM_ok F (Obj.entries props))
      as [items ->]
  end.
  - intros [key value] Hin.
    pose proof (entry_value_smaller props key value Hin) as Hsmaller.
    apply In_entries in Hin.
    assert (Hvalue : noEmptyExamples value = true).
    { unfold noEmptyExamplesIn in Hsafe. rewrite forallb_forall in Hsafe.
      exact (Hsafe (key, value) Hin). }
    destruct (PropertyContent_ok value) as [content ->].
    { rewrite noEmptyExamples_eq in Hvalue.
      intros Hempty. rewrite Hempty in Hvalue. discriminate. }
    cbn [bind]. destruct (firstFragmentHasProperties value).
    + destruct (IH _ Hsmaller (own (properties (mergeAllOf value))) true eq_refl
                  (noEmptyExamplesIn_merged value Hvalue)) as [nested ->].
      cbn [bind]. eexists. reflexivity.
    + cbn [bind]. eexists. reflexivity.
  - cbn [bind]. eexists. reflexivity.
Qed.

Lemma PropertiesList_returns_witness :
  exists node,
    PropertiesList
      [("provider",
        allOfOnly [propertiesOnly [("region", examplesOnly ["us-east-1"])]])]
      false = Ok node.
Proof.
  apply (PropertiesList_returns
           [("provider",
             allOfOnly [propertiesOnly [("region", examplesOnly ["us-east-1"])]])]
           false).
  reflexivity.
Defined.

(** X15.  One property with [examples: []] makes the whole list throw,
    wherever it stands among the properties: no section is rendered, for
    any of them. *)
Theorem PropertiesList_throws (props : Properties) (sub_heading : bool)
    (key : string) (value : SchemaProperty) :
  In (key, value) props ->
  examples value = Some [] ->
  exists e, PropertiesList props sub_heading = Throw e.
Proof.
  intros Hin Hempty. rewrite PropertiesList_unfold. unfold PropertiesList_body.
  assert (Hentry : In (key, value) (Obj.entries props)).
  { apply (Permutation_in _ (Permutation_sym (Permutation_entries props))).
    exact Hin. }
  match goal with
  | |- exists e, bind (mapM ?F _) _ = _ =>
      destruct (mapM_throw F (Obj.entries props) (key, value)
                  (TypeError "Cannot read properties of undefined (reading 'match')")
                  Hentry) as [e' ->]
  end.
  - unfold PropertyContent. rewrite Hempty. reflexivity.
  - cbn [bind]. eexists. reflexivity.
Qed.

Lemma PropertiesList_throws_witness :
  exists e,
    PropertiesList [("first", typeOnly "string"); ("second", examplesOnly [])]
                   false = Throw e.
Proof.
  apply (PropertiesList_throws
           [("first", typeOnly "string"); ("second", examplesOnly [])]
           false "second" (examplesOnly [])).
  - right; left; reflexivity.
  - reflexivity.
Defined.

Lemma PropertiesList_sections_shape (props : Properties) (sub_heading : bool)
    (node : Node) :
  PropertiesList props sub_heading = Ok node ->
  Forall2
    (fun (entry : string * SchemaProperty) (section : Node) =>
       exists content options,
         PropertyContent (snd entry) = Ok content
         /\ section
            = Elem "div" [("key", PStr (fst entry))]
                (PropertieTitle (fst entry) sub_heading (deprecated (snd entry))
                 :: content :: options)
         /\ (options = []
             \/ exists nested,
                 PropertiesList (own (properties (mergeAllOf (snd entry)))) true
                 = Ok nested
                 /\ options = [availableOptions nested]))
    (Obj.entries props) (children node).
Proof.
  rewrite PropertiesList_unfold. unfold PropertiesList_body.
  match goal with
  | |- bind (mapM ?F _) _ = _ -> _ => set (render := F)
  end.
  destruct (mapM render (Obj.entries props)) as [items|e] eqn:Hitems;
    cbn [bind]; [|discriminate].
  intros Heq. injection Heq as <-. cbn [children Fragment].
  apply mapM_Forall2 in Hitems.
  eapply Forall2_impl; [|exact Hitems].
  intros [key value] section. unfold render. cbn [fst snd].
  destruct (PropertyContent value) as [content|e]; cbn [bind]; [|discriminate].
  destruct (firstFragmentHasProperties value).
  - destruct (PropertiesList (own (properties (mergeAllOf value))) true)
      as [nested|e]; cbn [bind]; [|discriminate].
    intros Heq. injection Heq as <-.
    exists content, [availableOptions nested].
    split; [reflexivity|]. split; [reflexivity|].
    right. exists nested. split; reflexivity.
  - cbn [bind]. intros Heq. injection Heq as <-.
    exists content, []. split; [reflexivity|]. split; [reflexivity|].
    left; reflexivity.
Qed.

(** X16.  There is one section per property.  Every section is a [div]
    keyed by its property that holds, in this order: the title of the key
    at the rank of the list ([h2] in the top list, [h3] in every nested
    list, whatever its depth), the content of the property as it is
    written, not of its flattened form (what only the fragments of [allOf]
    provide, a type or a description, is not displayed), and at most one
    "Available Options", rendered as a nested list. *)
Theorem PropertiesList_section_structure (props : Properties)
    (sub_heading : bool) (node : Node) :
  PropertiesList props sub_heading = Ok node ->
  length (children node) = length props
  /\ Forall2
       (fun (entry : string * SchemaProperty) (section : Node) =>
          exists content options,
            PropertyContent (snd entry) = Ok content
            /\ section
               = Elem "div" [("key", PStr (fst entry))]
                   (PropertieTitle (fst entry) sub_heading (deprecated (snd entry))
                    :: content :: options)
            /\ (options = []
                \/ exists nested,
                    PropertiesList (own (properties (mergeAllOf (snd entry)))) true
                    = Ok nested
                    /\ options = [availableOptions nested]))
       (Obj.entries props) (children node).
Proof.
  intros Hrender.
  pose proof (PropertiesList_sections_shape props sub_heading node Hrender) as Hshape.
  split; [|exact Hshape].
  rewrite <- (Forall2_length Hshape).
  apply Permutation_length, Permutation_entries.
Qed.

Lemma PropertiesList_section_structure_witness :
  exists node,
    PropertiesList [("provider", allOfOnly [typeOnly "string"])] false = Ok node
    /\ length (children node) = 1.
Proof.
  eexists. split; [reflexivity|].
  apply (PropertiesList_section_structure
           [("provider", allOfOnly [typeOnly "string"])] false).
  reflexivity.
Defined.

(** X17.  The "Available Options" of a property has one sub-section per
    key of the property's own [properties] and of the [properties] that
    its fragments have directly, all fragments and not only the first, in
    the order [Object.entries] gives to their union. *)
Theorem available_options_keys (props : Properties) (sub_heading : bool)
    (node : Node) :
  PropertiesList props sub_heading = Ok node ->
  Forall2
    (fun (entry : string * SchemaProperty) (section : Node) =>
       forall nested,
         detailsOf section = [availableOptions nested] ->
         childKeys nested
         = keys (Obj.entries
                   (fold_left (fun a cur => Obj.spread a (own (properties cur)))
                              (match allOf (snd entry) with
                               | Some fragments => fragments
                               | None => []
                               end)
                              (own (properties (snd entry))))))
    (Obj.entries props) (children node).
Proof.
  intros Hrender. apply PropertiesList_sections in Hrender.
  eapply Forall2_impl; [|exact Hrender].
  intros entry section [_ Hoptions] nested Hdetails.
  destruct (firstFragmentHasProperties (snd entry)).
  - destruct Hoptions as [nested' [Hnested Hdetails']].
    rewrite Hdetails' in Hdetails. injection Hdetails as ->.
    rewrite (PropertiesList_keys _ _ _ Hnested), properties_mergeAllOf.
    reflexivity.
  - rewrite Hoptions in Hdetails. discriminate.
Qed.

Lemma available_options_keys_witness :
  exists node,
    PropertiesList
      [("provider",
        mkProperty None None None None None None
          (Some [("name", emptyProperty)]) None None
          (Some [propertiesOnly [("region", emptyProperty)];
                 propertiesOnly [("zone", emptyProperty)]])
          None None None)]
      false = Ok node
    /\ Forall2
         (fun (entry : string * SchemaProperty) (section : Node) =>
            forall nested,
              detailsOf section = [availableOptions nested] ->
              childKeys nested
              = keys (Obj.entries
                        (fold_left (fun a cur => Obj.spread a (own (properties cur)))
                                   (match allOf (snd entry) with
                                    | Some fragments => fragments
                                    | None => []
                                    end)
                                   (own (properties (snd entry))))))
         (Obj.entries
            [("provider",
              mkProperty None None None None None None
                (Some [("name", emptyProperty)]) None None
                (Some [propertiesOnly [("region", emptyProperty)];
                       propertiesOnly [("zone", emptyProperty)]])
                None None None)])
         (children node).
Proof.
  eexists. split; [reflexivity|].
  apply (available_options_keys
           [("provider",
             mkProperty None None None None None None
               (Some [("name", emptyProperty)]) None None
               (Some [propertiesOnly [("region", emptyProperty)];
                      propertiesOnly [("zone", emptyProperty)]])
               None None None)]
           false).
  reflexivity.
Defined.

(** ** The table of contents *)

Lemma Permutation_sort_insert (e : string * SchemaProperty) (l : Properties) :
  Permutation (sort_insert e l) (e :: l).
Proof.
  induction l as [|e' l IH]; cbn [sort_insert]; [reflexivity|].
  destruct (String.ltb (entry_toString e') (entry_toString e)); [|reflexivity].
  rewrite IH. apply perm_swap.
Qed.

Lemma Permutation_sort (l : Properties) : Permutation (sort l) l.
Proof.
  unfold sort. induction l as [|e l IH]; [reflexivity|].
  cbn [fold_right]. rewrite Permutation_sort_insert. apply perm_skip. exact IH.
Qed.

Lemma ltb_asym (a b : string) : String.ltb a b = true -> String.ltb b a = false.
Proof.
  unfold String.ltb. rewrite (String.compare_antisym a b).
  destruct (String.compare b a); cbn; congruence.
Qed.

Lemma Sorted_sort_insert (e : string * SchemaProperty) (l : Properties) :
  Sorted notAfter l -> Sorted notAfter (sort_insert e l).
Proof.
  induction 1 as [|e' l Hsorted IH Hhd]; cbn [sort_insert].
  - repeat constructor.
  - destruct (String.ltb (entry_toString e') (entry_toString e)) eqn:Hlt.
    + constructor; [exact IH|].
      destruct l as [|e'' l]; cbn [sort_insert].
      * constructor. unfold notAfter. exact (ltb_asym _ _ Hlt).
      * destruct (String.ltb (entry_toString e'') (entry_toString e)).
        -- inversion Hhd; subst. constructor. assumption.
        -- constructor. unfold notAfter. exact (ltb_asym _ _ Hlt).
    + constructor; [constructor; assumption|].
      constructor. unfold notAfter. exact Hlt.
Qed.

Lemma Sorted_sort (l : Properties) : Sorted notAfter (sort l).
Proof.
  unfold sort. induction l as [|e l IH]; [constructor|].
  cbn [fold_right]. apply Sorted_sort_insert. exact IH.
Qed.

Lemma Sorted_keys (l : Properties) :
  Sorted notAfter l -> Sorted tocOrder (map fst l).
Proof.
  induction 1 as [|e l Hsorted IH Hhd]; cbn [map]; constructor; [exact IH|].
  destruct Hhd as [|e' l Hrel]; cbn [map]; constructor. exact Hrel.
Qed.

Lemma Variant2_SchemaToc_keys (props : Properties) :
  childKeys (Variant2.SchemaToc props) = map fst (sort (Obj.entries props)).
Proof.
  unfold Variant2.SchemaToc, childKeys. cbn [children].
  induction (sort (Obj.entries props)) as [|[key value] l IH]; [reflexivity|].
  cbn [map flat_map fst]. rewrite IH. reflexivity.
Qed.

Lemma Permutation_toc_keys (props : Properties) :
  Permutation (map fst (sort (Obj.entries props))) (keys props).
Proof.
  unfold keys. apply Permutation_map.
  rewrite Permutation_sort. apply Permutation_entries.
Qed.

(** X18.  In both variants the table of contents has exactly one entry
    per property, none dropped and none repeated, and its entries are in
    the order of the default sort: each key, followed by
    [",[object Object]"], is not after the next one in code-unit order. *)
Theorem SchemaToc_sorted_permutation (schema : Schema.t) :
  Permutation (childKeys (SchemaToc schema)) (keys (Schema.properties schema))
  /\ Sorted tocOrder (childKeys (SchemaToc schema))
  /\ Permutation (childKeys (Variant2.SchemaToc (Schema.properties schema)))
                 (keys (Schema.properties schema))
  /\ Sorted tocOrder (childKeys (Variant2.SchemaToc (Schema.properties schema))).
Proof.
  rewrite SchemaToc_keys, Variant2_SchemaToc_keys.
  split; [apply Permutation_toc_keys|].
  split; [apply Sorted_keys, Sorted_sort|].
  split; [apply Permutation_toc_keys|apply Sorted_keys, Sorted_sort].
Qed.

(** X19.  The sections and the table of contents of the first variant
    show the same properties, each once: they differ by their order
    only. *)
Theorem sections_and_toc_same_keys (schema : Schema.t) (node : Node) :
  PropertiesList (Schema.properties schema) false = Ok node ->
  Permutation (childKeys node) (childKeys (SchemaToc schema)).
Proof.
  intros Hrender.
  rewrite (PropertiesList_keys _ _ _ Hrender), SchemaToc_keys.
  apply Permutation_map. symmetry. apply Permutation_sort.
Qed.

Lemma sections_and_toc_same_keys_witness :
  exists node,
    PropertiesList [("zeta", emptyProperty); ("alpha", emptyProperty)] false
    = Ok node
    /\ Permutation (childKeys node)
         (childKeys (SchemaToc
                       {| Schema.title := "ConfigSchema"; Schema.description := "d";
                          Schema.type := "object";
                          Schema.properties :=
                            [("zeta", emptyProperty); ("alpha", emptyProperty)];
                          Schema.required := None |})).
Proof.
  eexists. split; [reflexivity|].
  apply (sections_and_toc_same_keys
           {| Schema.title := "ConfigSchema"; Schema.description := "d";
              Schema.type := "object";
              Schema.properties :=
                [("zeta", emptyProperty); ("alpha", emptyProperty)];
              Schema.required := None |}).
  reflexivity.
Defined.

Lemma ascii_above_comma (c : ascii) :
  44 < nat_of_ascii c ->
  Ascii.compare ","%char c = Lt /\ Ascii.compare c ","%char = Gt.
Proof.
  intros Hc. unfold Ascii.compare, nat_of_ascii in *.
  change (N_of_ascii ","%char) with 44%N.
  split; [apply N.compare_lt_iff|apply N.compare_gt_iff]; lia.
Qed.

Lemma compare_with_suffix (k1 : string) :
  forall k2,
    above_comma k1 = true -> above_comma k2 = true ->
    String.compare (k1 ++ ",[object Object]") (k2 ++ ",[object Object]")
    = String.compare k1 k2.
Proof.
  induction k1 as [|c1 k1 IH]; intros [|c2 k2] H1 H2.
  - reflexivity.
  - cbn [above_comma] in H2. apply andb_prop in H2. destruct H2 as [Hc2 _].
    apply Nat.ltb_lt in Hc2. destruct (ascii_above_comma c2 Hc2) as [Hlt _].
    change (EmptyString ++ ",[object Object]")
      with (String ","%char "[object Object]").
    cbn [append String.compare]. rewrite Hlt. reflexivity.
  - cbn [above_comma] in H1. apply andb_prop in H1. destruct H1 as [Hc1 _].
    apply Nat.ltb_lt in Hc1. destruct (ascii_above_comma c1 Hc1) as [_ Hgt].
    change (EmptyString ++ ",[object Object]")
      with (String ","%char "[object Object]").
    cbn [append String.compare]. rewrite Hgt. reflexivity.
  - cbn [above_comma] in H1, H2. apply andb_prop in H1, H2.
    cbn [append String.compare].
    rewrite (IH k2 (proj2 H1) (proj2 H2)). reflexivity.
Qed.

Lemma Sorted_weaken {A : Type} (P : A -> Prop) (R R' : A -> A -> Prop) (l : list A) :
  (forall a b, P a -> P b -> R a b -> R' a b) ->
  Forall P l -> Sorted R l -> Sorted R' l.
Proof.
  intros Himpl Hall Hsorted.
  induction Hsorted as [|a l Hsorted IH Hhd]; [constructor|].
  inversion Hall as [|? ? Pa Hl]; subst.
  constructor; [exact (IH Hl)|].
  destruct Hhd as [|b l Hrel]; constructor.
  inversion Hl; subst. apply Himpl; assumption.
Qed.

(** X20.  When every key is made of characters above the comma in
    code-unit order (letters, digits, [-], [.], [_]), the table of
    contents is in the lexicographic order of the keys themselves: the
    text that the default sort appends to each key does not change the
    order. *)
Theorem SchemaToc_key_order (schema : Schema.t) :
  forallb above_comma (keys (Schema.properties schema)) = true ->
  Sorted keyOrder (childKeys (SchemaToc schema)).
Proof.
  intros Hkeys.
  assert (Hall : Forall (fun k => above_comma k = true)
                        (map fst (sort (Obj.entries (Schema.properties schema))))).
  { apply (Permutation_Forall
             (Permutation_sym (Permutation_toc_keys (Schema.properties schema)))).
    apply Forall_forall. apply forallb_forall. exact Hkeys. }
  rewrite SchemaToc_keys.
  apply (Sorted_weaken (fun k => above_comma k = true) tocOrder keyOrder);
    [|exact Hall|apply Sorted_keys, Sorted_sort].
  intros a b Ha Hb. unfold tocOrder, keyOrder, String.ltb.
  rewrite (compare_with_suffix b a Hb Ha). trivial.
Qed.

Lemma SchemaToc_key_order_witness :
  Sorted keyOrder
    (childKeys (SchemaToc
                  {| Schema.title := "ConfigSchema"; Schema.description := "d";
                     Schema.type := "object";
                     Schema.properties :=
                       [("provider", emptyProperty); ("cdsdashboards", emptyProperty);
                        ("ci_cd", emptyProperty)];
                     Schema.required := None |})).
Proof.
  apply SchemaToc_key_order. reflexivity.
Defined.

(** ** Links and anchors *)

Lemma toc_entry_target (props : Properties) (entry : Node) :
  In entry (map tocEntry (sort (Obj.entries props))) ->
  exists key value,
    In (key, value) (Obj.entries props)
    /\ hrefOf entry = Some ("#" ++ Js.replace_all_underscores key).
Proof.
  intros Hin. apply in_map_iff in Hin. destruct Hin as [[key value] [<- Hin]].
  exists key, value. split; [|reflexivity].
  exact (Permutation_in _ (Permutation_sort (Obj.entries props)) Hin).
Qed.

Lemma In_headingIds_child (tag : string) (props : list (string * PropValue))
    (c : list Node) (child : Node) (i : string) :
  String.eqb tag "Heading" = false ->
  In child c -> In i (headingIds child) -> In i (headingIds (Elem tag props c)).
Proof.
  intros Htag Hchild Hid. unfold headingIds in *. apply in_flat_map in Hid.
  destruct Hid as [h [Hh Hi]]. apply in_flat_map. exists h. split; [|exact Hi].
  cbn [headingsOf]. rewrite Htag. apply in_flat_map. exists child.
  split; [exact Hchild|exact Hh].
Qed.

Lemma Forall2_In_left {A B : Type} (R : A -> B -> Prop) (l : list A) (l' : list B)
    (x : A) :
  Forall2 R l l' -> In x l -> exists y, In y l' /\ R x y.
Proof.
  induction 1 as [|a b l l' Hab _ IH]; intros Hin; [contradiction|].
  destruct Hin as [->|Hin].
  - exists b. split; [left; reflexivity|exact Hab].
  - destruct (IH Hin) as [y [Hy Hxy]]. exists y. split; [right; exact Hy|exact Hxy].
Qed.

(** X21.  In the first variant every link of the table of contents has
    its target on the page: the [href] is ["#"] followed by the [id] of the
    heading of one of the sections. *)
Theorem toc_links_have_targets (schema : Schema.t) (node : Node) :
  PropertiesList (Schema.properties schema) false = Ok node ->
  forall entry,
    In entry (children (SchemaToc schema)) ->
    exists target,
      hrefOf entry = Some ("#" ++ target) /\ In target (headingIds node).
Proof.
  intros Hrender entry Hentry. cbn [SchemaToc children] in Hentry.
  destruct (toc_entry_target _ _ Hentry) as [key [value [Hin Hhref]]].
  exists (Js.replace_all_underscores key). split; [exact Hhref|].
  pose proof (PropertiesList_sections_shape _ _ _ Hrender) as Hshape.
  assert (Hnode : exists items, node = Fragment items).
  { revert Hrender. rewrite PropertiesList_unfold. unfold PropertiesList_body.
    match goal with
    | |- bind ?m _ = _ -> _ => destruct m as [items|e]
    end; cbn [bind]; [|discriminate].
    intros Heq. injection Heq as <-. exists items. reflexivity. }
  destruct Hnode as [items ->]. cbn [children Fragment] in Hshape.
  destruct (Forall2_In_left _ _ _ _ Hshape Hin)
    as [section [Hsection [content [options [_ [-> _]]]]]].
  cbn [fst snd]. unfold Fragment.
  eapply In_headingIds_child; [reflexivity|exact Hsection|].
  eapply In_headingIds_child; [reflexivity|left; reflexivity|].
  unfold PropertieTitle.
  eapply In_headingIds_child; [reflexivity|left; reflexivity|].
  left. reflexivity.
Qed.

Lemma toc_links_have_targets_witness :
  exists node,
    PropertiesList [("ci_cd", emptyProperty)] false = Ok node
    /\ In "ci-cd" (headingIds node).
Proof.
  eexists. split; [reflexivity|].
  destruct (toc_links_have_targets
              {| Schema.title := "ConfigSchema"; Schema.description := "d";
                 Schema.type := "object";
                 Schema.properties := [("ci_cd", emptyProperty)];
                 Schema.required := None |}
              _ eq_refl
              (tocEntry ("ci_cd", emptyProperty)) (or_introl eq_refl))
    as [target [Hhref Htarget]].
  cbn in Hhref. injection Hhref as <-. exact Htarget.
Defined.

Lemma replace_all_fixed (s : string) :
  Js.replace_all_underscores s = s <-> count_underscores s = 0.
Proof.
  induction s as [|c s IH]; cbn [Js.replace_all_underscores count_underscores].
  - split; reflexivity.
  - destruct (Ascii.eqb_spec c "_"%char) as [->|Hne].
    + split; [intros Heq; discriminate|intros Heq; discriminate].
    + cbn [plus]. rewrite <- IH. split.
      * intros Heq. injection Heq as Heq. exact Heq.
      * intros ->. reflexivity.
Qed.

Lemma replace_first_is_replace_all (s : string) :
  Js.replace_first_underscore s = Js.replace_all_underscores s
  <-> count_underscores s <= 1.
Proof.
  induction s as [|c s IH];
    cbn [Js.replace_first_underscore Js.replace_all_underscores count_underscores].
  - split; [lia|reflexivity].
  - destruct (Ascii.eqb_spec c "_"%char) as [->|Hne].
    + pose proof (replace_all_fixed s) as Hfixed. split.
      * intros Heq. injection Heq as Heq. symmetry in Heq.
        apply Hfixed in Heq. lia.
      * intros Hle. f_equal. symmetry. apply Hfixed. lia.
    + cbn [plus]. rewrite <- IH. split.
      * intros Heq. injection Heq as Heq. exact Heq.
      * intros ->. reflexivity.
Qed.

(** X22.  A section of the second variant carries two ids, on the anchor
    and on the heading.  The id of the heading is the target of the link
    of the table of contents; the id of the anchor is the same exactly
    when the name has at most one underscore, since only the first one is
    replaced there. *)
Theorem PropertyDetail_ids (name : string) (property : SchemaProperty)
    (level : nat) :
  exists anchor heading rest,
    children (Variant2.PropertyDetail name property level)
    = anchor :: heading :: rest
    /\ tagOf anchor = Some "a" /\ tagOf heading = Some "Heading"
    /\ hrefOf (tocEntry (name, property))
       = option_map (append "#") (stringProp "id" heading)
    /\ (stringProp "id" anchor = stringProp "id" heading
        <-> count_underscores name <= 1).
Proof.
  unfold Variant2.PropertyDetail. cbn [children Fragment app].
  eexists. eexists. eexists. split; [reflexivity|].
  split; [reflexivity|]. split; [reflexivity|]. split; [reflexivity|].
  cbn. rewrite <- replace_first_is_replace_all. split.
  - intros Heq. injection Heq as Heq. exact Heq.
  - intros ->. reflexivity.
Qed.

Lemma PropertyDetail_ids_witness :
  exists anchor heading rest,
    children (Variant2.PropertyDetail "ci_cd" emptyProperty 1)
    = anchor :: heading :: rest
    /\ stringProp "id" anchor = stringProp "id" heading.
Proof.
  destruct (PropertyDetail_ids "ci_cd" emptyProperty 1)
    as [anchor [heading [rest [Hchildren [_ [_ [_ Hsame]]]]]]].
  exists anchor, heading, rest. split; [exact Hchildren|].
  apply Hsame. cbn. lia.
Defined.

(** X23.  In the second variant too every link of the table of contents
    has its target on the page: the [id] of the heading of one of the
    sections. *)
Theorem Variant2_toc_links_have_targets (props : Properties) (entry : Node) :
  In entry (children (Variant2.SchemaToc props)) ->
  exists target,
    hrefOf entry = Some ("#" ++ target)
    /\ In target (headingIds (Variant2.PropertiesList props)).
Proof.
  intros Hentry. cbn [Variant2.SchemaToc children] in Hentry.
  destruct (toc_entry_target _ _ Hentry) as [key [value [Hin Hhref]]].
  exists (Js.replace_all_underscores key). split; [exact Hhref|].
  unfold Variant2.PropertiesList, Fragment.
  eapply In_headingIds_child; [reflexivity| |].
  - apply in_map_iff. exists (key, value). split; [reflexivity|exact Hin].
  - unfold Variant2.PropertyDetail, Fragment.
    eapply In_headingIds_child; [reflexivity|right; left; reflexivity|].
    left. reflexivity.
Qed.

Lemma Variant2_toc_links_have_targets_witness :
  exists target,
    hrefOf (tocEntry ("ci_cd", emptyProperty)) = Some ("#" ++ target)
    /\ In target (headingIds (Variant2.PropertiesList [("ci_cd", emptyProperty)])).
Proof.
  apply (Variant2_toc_links_have_targets [("ci_cd", emptyProperty)]).
  left. reflexivity.
Defined.

(** ** The page *)

(** X24.  Once the schema is loaded, one property with [examples: []]
    among its top-level properties makes the page of the first variant
    throw: neither the table of contents nor any section is returned. *)
Theorem NebariConfig_throws (st : HookState) (s : Schema.t) (key : string)
    (value : SchemaProperty) :
  view st = Ready s ->
  In (key, value) (Schema.properties s) ->
  examples value = Some [] ->
  exists e, NebariConfig st = Throw e.
Proof.
  intros Hview Hin Hempty. unfold NebariConfig. rewrite Hview.
  assert (Hthrow : exists e, PropertiesList (Schema.properties s) false = Throw e).
  { rewrite PropertiesList_unfold. unfold PropertiesList_body.
    assert (Hentry : In (key, value) (Obj.entries (Schema.properties s))).
    { apply (Permutation_in _ (Permutation_sym (Permutation_entries _))).
      exact Hin. }
    match goal with
    | |- exists e, bind (mapM ?F _) _ = _ =>
        destruct (mapM_throw F (Obj.entries (Schema.properties s)) (key, value)
                    (TypeError "Cannot read properties of undefined (reading 'match')")
                    Hentry) as [e' ->]
    end.
    - unfold PropertyContent. rewrite Hempty. reflexivity.
    - cbn [bind]. eexists. reflexivity. }
  destruct Hthrow as [e ->]. cbn [bind]. exists e. reflexivity.
Qed.

Lemma NebariConfig_throws_witness :
  exists e,
    NebariConfig
      (useSchema Schema.t Ok
         (Ok {| ok := true; status := 200; statusText := "OK";
                json := Ok {| Schema.title := "ConfigSchema";
                              Schema.description := "d";
                              Schema.type := "object";
                              Schema.properties := [("provider", examplesOnly [])];
                              Schema.required := None |} |}))
    = Throw e.
Proof.
  apply (NebariConfig_throws _
           {| Schema.title := "ConfigSchema"; Schema.description := "d";
              Schema.type := "object";
              Schema.properties := [("provider", examplesOnly [])];
              Schema.required := None |}
           "provider" (examplesOnly [])).
  - reflexivity.
  - left. reflexivity.
  - reflexivity.
Defined.
